(** * Bloom-filter watch probe and auth [Delay]: a shallow embedding

    Sources embedded here:
    - [packages/firestore/scripts/bloom_filter_watch_test/run_test.ts]
      ([runTest], [BloomFilterWatchTest], [getBloomFilterNumBits],
      [assertDocumentsInSnapshot]);
    - [packages/auth-ts/src/core/util/delay.ts] ([Delay]).

    JavaScript numbers that the code uses as counts, paddings and
    millisecond delays are integers, modelled as [Z]. Optional properties
    are [option]s, JavaScript exceptions are the [Abrupt] completions of
    [Completion], and the collaborators the script only calls (watch
    stream, document store, logger, id generator, timer) are the events of
    a small free monad, interpreted against an arbitrary environment. *)

From stdpp Require Import base option list sorting gmap strings.
From Stdlib Require Import ZArith Lia.

Local Open Scope Z_scope.

(** ** Completions: a normal value or a thrown error *)

Inductive Error : Type :=
| TypeError
| InvalidRunTestOptionsError (documentDeleteCount documentCreateCount : Z)
| AssertionError (actual expected : list string)
| DelayError (message : string)
| RemoteError (code : Z).

Inductive Completion (A : Type) : Type :=
| Normal (value : A)
| Abrupt (error : Error).
Arguments Normal {A} value.
Arguments Abrupt {A} error.

Definition completion_bind {A B} (f : A → Completion B) (c : Completion A)
  : Completion B :=
  match c with
  | Normal a => f a
  | Abrupt e => Abrupt e
  end.

#[export] Instance completion_ret : MRet Completion := @Normal.
#[export] Instance completion_mbind : MBind Completion := @completion_bind.

Definition is_normal {A} (c : Completion A) : bool :=
  match c with Normal _ => true | Abrupt _ => false end.

(** [receiver.field]: reading a property of [undefined] throws a
    [TypeError]. *)
Definition get_property {A B} (receiver : option A) (field : A → B)
  : Completion B :=
  match receiver with
  | Some o => Normal (field o)
  | None => Abrupt TypeError
  end.

(** [receiver?.field]: [undefined] when the receiver is. *)
Definition optional_chain {A B} (receiver : option A) (field : A → option B)
  : option B :=
  match receiver with
  | Some o => field o
  | None => None
  end.

(** [value ?? fallback] *)
Definition nullish {A} (value : option A) (fallback : A) : A :=
  match value with
  | Some v => v
  | None => fallback
  end.

(** ** The existence filter wire shape

    [firestore_proto_api] declares every property optional:
    [ExistenceFilter.unchangedNames?: BloomFilter],
    [BloomFilter.bits?: BitSequence],
    [BitSequence.bitmap?], [BitSequence.padding?: number]. *)

Record BitSequence : Type := {
  bitmap : option string;
  padding : option Z
}.

Record BloomFilter : Type := {
  bits : option BitSequence;
  hashCount : option Z
}.

Record ExistenceFilter : Type := {
  targetId : option Z;
  count : option Z;
  unchangedNames : option BloomFilter
}.

(** [run_test.ts], lines 181-191. The argument is an [option] because the
    function itself guards against a missing filter with [?.]. *)
Definition getBloomFilterNumBits (existenceFilter : option ExistenceFilter)
  : Completion (option Z) :=
  match optional_chain existenceFilter unchangedNames with
  | None => Normal None
  | Some _ =>
      names ← get_property existenceFilter unchangedNames;
      bits1 ← get_property names bits;
      let bitmap := nullish (optional_chain bits1 bitmap) "" in
      names' ← get_property existenceFilter unchangedNames;
      bits2 ← get_property names' bits;
      let padding := nullish (optional_chain bits2 padding) 0 in
      if (padding <? 0) || (padding >? 7)
      then Normal None
      else Normal (Some (Z.of_nat (String.length bitmap) * 8 - padding))
  end.

(** The two operands of the final subtraction, as lines 185 and 186 compute
    them from a present [unchangedNames]. *)
Definition bitmap_of (names : BloomFilter) : string :=
  nullish (optional_chain (bits names) bitmap) "".

Definition padding_of (names : BloomFilter) : Z :=
  nullish (optional_chain (bits names) padding) 0.

(** Some nested field the computation reads is absent. *)
Definition some_field_missing (existenceFilter : option ExistenceFilter)
  : Prop :=
  match existenceFilter with
  | None => True
  | Some f =>
      match unchangedNames f with
      | None => True
      | Some names =>
          match bits names with
          | None => True
          | Some b => bitmap b = None ∨ padding b = None
          end
      end
  end.

(** ** [Delay] ([delay.ts]) *)

Module Delay.

Record t : Type := {
  OFFLINE_DELAY_MS_ : Z;
  shortDelay : Z;
  longDelay : Z;
  isMobile : bool
}.

(** The constructor; [isMobileCordova] and [isReactNative] are the
    answers of the two environment probes of [@firebase/util]. *)
Definition new (shortDelay longDelay : Z)
    (isMobileCordova isReactNative : bool) : Completion t :=
  if shortDelay >? longDelay
  then Abrupt (DelayError "Short delay should be less than long delay!")
  else Normal {| OFFLINE_DELAY_MS_ := 5000;
                 shortDelay := shortDelay;
                 longDelay := longDelay;
                 isMobile := isMobileCordova || isReactNative |}.

(** [get()]; [isOnline] is the answer of [isOnline()]. *)
Definition get (d : t) (isOnline : bool) : Z :=
  if negb isOnline
  then Z.min (OFFLINE_DELAY_MS_ d) (shortDelay d)
  else if isMobile d then longDelay d else shortDelay d.

End Delay.

(** ** The existence filter as JavaScript sees it

    At run time a property can be [undefined] (absent), [null], or hold a
    value, and the guard of [getBloomFilterNumBits] compares with
    [undefined] only. [Dynamic] keeps the three cases apart; the records
    above are its restriction to the declared types, where no property is
    [null]. *)

Module Dynamic.

Inductive Js (A : Type) : Type :=
| Undefined
| Null
| Value (a : A).
Arguments Undefined {A}.
Arguments Null {A}.
Arguments Value {A} a.

Record BitSequence : Type := {
  bitmap : Js string;
  padding : Js Z
}.

Record BloomFilter : Type := {
  bits : Js BitSequence
}.

Record ExistenceFilter : Type := {
  unchangedNames : Js BloomFilter
}.

(** [receiver.field]: reading a property of [undefined] or of [null] throws
    a [TypeError]. *)
Definition get_property {A B} (receiver : Js A) (field : A → B)
  : Completion B :=
  match receiver with
  | Value o => Normal (field o)
  | Undefined | Null => Abrupt TypeError
  end.

(** [receiver?.field]: [undefined] when the receiver is [undefined] or
    [null]. *)
Definition optional_chain {A B} (receiver : Js A) (field : A → Js B) : Js B :=
  match receiver with
  | Value o => field o
  | Undefined | Null => Undefined
  end.

(** [value ?? fallback]: the fallback replaces [undefined] and [null]. *)
Definition nullish {A} (value : Js A) (fallback : A) : A :=
  match value with
  | Value v => v
  | Undefined | Null => fallback
  end.

(** [value === undefined] *)
Definition is_undefined {A} (value : Js A) : bool :=
  match value with
  | Undefined => true
  | Null | Value _ => false
  end.

(** [run_test.ts], lines 181-191. *)
Definition getBloomFilterNumBits (existenceFilter : Js ExistenceFilter)
  : Completion (option Z) :=
  if is_undefined (optional_chain existenceFilter unchangedNames)
  then Normal None
  else
    names ← get_property existenceFilter unchangedNames;
    bits1 ← get_property names bits;
    let bitmap := nullish (optional_chain bits1 bitmap) "" in
    names' ← get_property existenceFilter unchangedNames;
    bits2 ← get_property names' bits;
    let padding := nullish (optional_chain bits2 padding) 0 in
    if (padding <? 0) || (padding >? 7)
    then Normal None
    else Normal (Some (Z.of_nat (String.length bitmap) * 8 - padding)).

(** The two operands of the final subtraction (lines 185 and 186). *)
Definition bitmap_of (names : BloomFilter) : string :=
  nullish (optional_chain (bits names) bitmap) "".

Definition padding_of (names : BloomFilter) : Z :=
  nullish (optional_chain (bits names) padding) 0.

(** [unchangedNames] is not [null]: the filter is [undefined] or [null], or
    its [unchangedNames] is absent or an object. *)
Definition names_not_null (existenceFilter : Js ExistenceFilter) : Prop :=
  optional_chain existenceFilter unchangedNames ≠ Null.

(** A JavaScript value of a declared optional type. *)
Definition of_option {A} (value : option A) : Js A :=
  match value with
  | Some v => Value v
  | None => Undefined
  end.

End Dynamic.

(** The typed filters as run-time values. *)
Definition BitSequence_to_js (b : BitSequence) : Dynamic.BitSequence :=
  {| Dynamic.bitmap := Dynamic.of_option (bitmap b);
     Dynamic.padding := Dynamic.of_option (padding b) |}.

Definition BloomFilter_to_js (names : BloomFilter) : Dynamic.BloomFilter :=
  {| Dynamic.bits := Dynamic.of_option (BitSequence_to_js <$> bits names) |}.

Definition ExistenceFilter_to_js (f : ExistenceFilter)
  : Dynamic.ExistenceFilter :=
  {| Dynamic.unchangedNames :=
       Dynamic.of_option (BloomFilter_to_js <$> unchangedNames f) |}.

(** ** Data of the resumption probe ([run_test.ts]) *)

Definition DOCUMENT_DATA_KEY : string := "BloomFilterWatchTest_GroupId".

(** The [Firestore] instance is an opaque handle the script only passes on. *)
Inductive Firestore : Type := FirestoreApp (name : string).

Module DocumentReference.
Record t : Type := { id : string; path : string }.
End DocumentReference.

(** [TargetSnapshot.documentPaths] is a [Set<string>]; the script reads its
    [size] and its [values()]. *)
Record TargetSnapshot : Type := { documentPaths : gset string }.

Module Target.
Record Resume : Type := { from : TargetSnapshot; expectedCount : Z }.
Record t : Type := {
  targetId : Z;
  projectId : string;
  collectionId : string;
  keyFilter : string;
  valueFilter : string;
  resume : option Resume
}.
End Target.

(** The [options] argument of [resumeWatchStream]. *)
Module ResumeOptions.
Record t : Type := { expectedCount : option Z }.
End ResumeOptions.

(** What [Promise.race([existenceFilterPromise, snapshotPromise])] resolves
    to; [result instanceof TargetSnapshot] tells the two apart. *)
Inductive RaceResult : Type :=
| RaceFilter (filter : ExistenceFilter)
| RaceSnapshot (snapshot : TargetSnapshot).

(** The messages handed to [log], one constructor per template. *)
Inductive LogMessage : Type :=
| MsgTestStarted
| MsgCreatingWatchStream (projectId host : string)
| MsgClosingWatchStream
| MsgTestCompleted
| MsgCreatingDocuments (count : Z) (collectionId : string)
| MsgCreatedDocuments (count : Z) (collectionId : string) (ids : list string)
| MsgDeletingDocuments (count : nat) (ids : list string)
| MsgDeletedDocuments (count : nat)
| MsgPausing (seconds : Z)
| MsgAddingTarget
| MsgWaitingForSnapshot
| MsgGotSnapshot (count : nat) (ids : list string)
| MsgRemovingTarget
| MsgResumingTarget (expectedCount : Z)
| MsgWaitingForExistenceFilter
| MsgNoExistenceFilter
| MsgGotExistenceFilter (filter : ExistenceFilter)
| MsgBloomFilterSize (numBits : Z).

(** ** Calls to collaborators

    Every call the script makes outside itself. [getInitialSnapshot] and
    [getExistenceFilter] only create a promise; awaiting one is a call of
    its own, because [resumeWatchStream] creates both promises first and
    awaits them later. *)
Inductive Call : Type :=
| Log (message : LogMessage)
| AutoId_newId
| createWatchStream (projectId host : string) (ssl : bool)
| WatchStream_open
| WatchStream_close
| WatchStream_addTarget (spec : Target.t)
| WatchStream_removeTarget (targetId : Z)
| WatchStream_getInitialSnapshot (targetId : Z)
| WatchStream_getExistenceFilter (targetId : Z)
| Await_snapshot (targetId : Z)
| Await_race (targetId : Z)
| DocumentUtil_createDocuments
    (db : Firestore) (collectionId : string) (count : Z)
    (data : list (string * string))
| DocumentUtil_deleteDocuments
    (db : Firestore) (collectionId : string)
    (documentRefs : list DocumentReference.t)
| setTimeout (milliseconds : Z).

(** What the environment answers; a call that can fail answers with a
    [Completion]. *)
Definition answer (c : Call) : Type :=
  match c with
  | Log _ => unit
  | AutoId_newId => string
  | createWatchStream _ _ _ => Completion unit
  | WatchStream_open => Completion unit
  | WatchStream_close => Completion unit
  | WatchStream_addTarget _ => Completion unit
  | WatchStream_removeTarget _ => Completion unit
  | WatchStream_getInitialSnapshot _ => unit
  | WatchStream_getExistenceFilter _ => unit
  | Await_snapshot _ => Completion TargetSnapshot
  | Await_race _ => Completion RaceResult
  | DocumentUtil_createDocuments _ _ _ _ =>
      Completion (list DocumentReference.t)
  | DocumentUtil_deleteDocuments _ _ _ => Completion unit
  | setTimeout _ => unit
  end.

(** ** Programs: a free monad over the calls, with exceptions *)

Inductive Prog (A : Type) : Type :=
| Ret (value : A)
| Throw (error : Error)
| Do (c : Call) (k : answer c → Prog A).
Arguments Ret {A} value.
Arguments Throw {A} error.
Arguments Do {A} c k.

Fixpoint prog_bind {A B} (f : A → Prog B) (p : Prog A) : Prog B :=
  match p with
  | Ret a => f a
  | Throw e => Throw e
  | Do c k => Do c (λ r, prog_bind f (k r))
  end.

#[export] Instance prog_ret : MRet Prog := @Ret.
#[export] Instance prog_mbind : MBind Prog := @prog_bind.

Definition perform (c : Call) : Prog (answer c) := Do c Ret.

(** [await p]: a rejected promise is rethrown. *)
Definition await {T} (p : Prog (Completion T)) : Prog T :=
  prog_bind (λ r, match r with
                  | Normal v => Ret v
                  | Abrupt e => Throw e
                  end) p.

(** A pure step that may throw. *)
Definition lift {T} (c : Completion T) : Prog T :=
  match c with
  | Normal v => Ret v
  | Abrupt e => Throw e
  end.

(** [try { body } finally { finalizer }]: the finalizer runs on both exits
    of the body; if the finalizer itself throws, that error replaces the
    body's completion. *)
Fixpoint try_finally {A} (body : Prog A) (finalizer : Prog unit) : Prog A :=
  match body with
  | Ret a => prog_bind (λ _, Ret a) finalizer
  | Throw e => prog_bind (λ _, Throw e) finalizer
  | Do c k => Do c (λ r, try_finally (k r) finalizer)
  end.

(** ** Array helpers *)

(** [array.slice(start)] *)
Definition Array_slice {A} (l : list A) (start : Z) : list A :=
  let len := Z.of_nat (length l) in
  let k := if start <? 0 then Z.max (len + start) 0 else Z.min start len in
  drop (Z.to_nat k) l.

(** [array.sort()] on strings: ascending in the order of [String.leb]. *)
Definition Array_sort (l : list string) : list string :=
  merge_sort String.le l.

(** [Math.ceil(n / 2)] *)
Definition Math_ceil_half (n : Z) : Z := Z.opp (Z.div (Z.opp n) 2).

(** Modelled from the spec: [assertDeepEqual] of [./util] is not among the
    sources; on two arrays of strings it is the "order-independent
    comparison" of the already sorted sides, so it throws unless the two
    arrays are equal element by element. *)
Definition assertDeepEqual (actual expected : list string)
  : Completion unit :=
  if decide (actual = expected)
  then Normal ()
  else Abrupt (AssertionError actual expected).

(** [documentIdFromDocumentPath] of [./util] is not among the sources and
    is taken as given. *)
Class Util : Type := {
  documentIdFromDocumentPath : string → string
}.

(** ** [BloomFilterWatchTest] *)

Module BloomFilterWatchTest.
Record t : Type := {
  db : Firestore;
  projectId : string;
  host : string;
  ssl : bool;
  documentCreateCount : Z;
  documentDeleteCount : Z;
  collectionId : string;
  uniqueId : string
}.
End BloomFilterWatchTest.

Import BloomFilterWatchTest.

Section Probe.
Context `{!Util}.

(** Lines 193-197. *)
Definition assertDocumentsInSnapshot
    (snapshot : TargetSnapshot) (expectedDocuments : list DocumentReference.t)
  : Completion unit :=
  let actualDocumentPathsSorted :=
    Array_sort (documentIdFromDocumentPath
                  <$> elements (documentPaths snapshot)) in
  let expectedDocumentPathsSorted :=
    Array_sort (DocumentReference.id <$> expectedDocuments) in
  assertDeepEqual actualDocumentPathsSorted expectedDocumentPathsSorted.

(** The constructor, lines 71-83. *)
Definition BloomFilterWatchTest_new
    (db : Firestore) (projectId host : string) (ssl : bool)
    (documentCreateCount documentDeleteCount : Z) (collectionId : string)
  : Prog BloomFilterWatchTest.t :=
  uniqueId ← perform AutoId_newId;
  mret {| db := db; projectId := projectId; host := host; ssl := ssl;
          documentCreateCount := documentCreateCount;
          documentDeleteCount := documentDeleteCount;
          collectionId := collectionId; uniqueId := uniqueId |}.

(** Lines 98-106. *)
Definition createDocuments (this : BloomFilterWatchTest.t)
  : Prog (list DocumentReference.t) :=
  perform (Log (MsgCreatingDocuments (documentCreateCount this)
                                     (collectionId this)));;
  createdDocumentRefs ←
    await (perform (DocumentUtil_createDocuments
                      (db this) (collectionId this)
                      (documentCreateCount this)
                      [(DOCUMENT_DATA_KEY, uniqueId this)]));
  let createdDocumentIds := DocumentReference.id <$> createdDocumentRefs in
  perform (Log (MsgCreatedDocuments (documentCreateCount this)
                                    (collectionId this)
                                    createdDocumentIds));;
  mret createdDocumentRefs.

(** Lines 108-114. *)
Definition deleteDocuments (this : BloomFilterWatchTest.t)
    (documentRefsToDelete : list DocumentReference.t) : Prog unit :=
  let documentIdsToDelete := DocumentReference.id <$> documentRefsToDelete in
  perform (Log (MsgDeletingDocuments (length documentRefsToDelete)
                                     documentIdsToDelete));;
  await (perform (DocumentUtil_deleteDocuments
                    (db this) (collectionId this) documentRefsToDelete));;
  perform (Log (MsgDeletedDocuments (length documentRefsToDelete))).

(** Lines 116-119. *)
Definition pause (this : BloomFilterWatchTest.t) (numSecondsToPause : Z)
  : Prog unit :=
  perform (Log (MsgPausing numSecondsToPause));;
  perform (setTimeout (numSecondsToPause * 1000)).

(** Lines 121-141. *)
Definition startTarget (this : BloomFilterWatchTest.t)
  : Prog TargetSnapshot :=
  perform (Log MsgAddingTarget);;
  await (perform (WatchStream_addTarget
                    {| Target.targetId := 1;
                       Target.projectId := projectId this;
                       Target.collectionId := collectionId this;
                       Target.keyFilter := DOCUMENT_DATA_KEY;
                       Target.valueFilter := uniqueId this;
                       Target.resume := None |}));;
  perform (Log MsgWaitingForSnapshot);;
  perform (WatchStream_getInitialSnapshot 1);;
  snapshot ← await (perform (Await_snapshot 1));
  let documentNames := Array_sort (elements (documentPaths snapshot)) in
  let documentIds := documentIdFromDocumentPath <$> documentNames in
  perform (Log (MsgGotSnapshot (length documentIds) documentIds));;
  perform (Log MsgRemovingTarget);;
  await (perform (WatchStream_removeTarget 1));;
  mret snapshot.

(** Line 144: [options?.expectedCount ?? snapshot.documentPaths.size]. *)
Definition resume_expectedCount
    (snapshot : TargetSnapshot) (options : option ResumeOptions.t) : Z :=
  nullish (optional_chain options ResumeOptions.expectedCount)
          (Z.of_nat (size (documentPaths snapshot))).

(** The target registered at lines 146-156. *)
Definition resume_target (this : BloomFilterWatchTest.t)
    (snapshot : TargetSnapshot) (expectedCount : Z) : Target.t :=
  {| Target.targetId := 2;
     Target.projectId := projectId this;
     Target.collectionId := collectionId this;
     Target.keyFilter := DOCUMENT_DATA_KEY;
     Target.valueFilter := uniqueId this;
     Target.resume := Some {| Target.from := snapshot;
                              Target.expectedCount := expectedCount |} |}.

(** Lines 163-171: what is logged about the winner of the race. *)
Definition log_race_result (result : RaceResult) : Prog unit :=
  match result with
  | RaceSnapshot _ => perform (Log MsgNoExistenceFilter)
  | RaceFilter filter =>
      perform (Log (MsgGotExistenceFilter filter));;
      bloomFilterNumBits ← lift (getBloomFilterNumBits (Some filter));
      match bloomFilterNumBits with
      | Some numBits => perform (Log (MsgBloomFilterSize numBits))
      | None => mret ()
      end
  end.

(** Lines 143-178. *)
Definition resumeWatchStream (this : BloomFilterWatchTest.t)
    (snapshot : TargetSnapshot) (options : option ResumeOptions.t)
  : Prog unit :=
  let expectedCount := resume_expectedCount snapshot options in
  perform (Log (MsgResumingTarget expectedCount));;
  await (perform (WatchStream_addTarget
                    (resume_target this snapshot expectedCount)));;
  perform (Log MsgWaitingForExistenceFilter);;
  perform (WatchStream_getExistenceFilter 2);;
  perform (WatchStream_getInitialSnapshot 2);;
  result ← await (perform (Await_race 2));
  log_race_result result;;
  perform (Log MsgWaitingForSnapshot);;
  snapshot2 ← await (perform (Await_snapshot 2));
  let documentNames2 := Array_sort (elements (documentPaths snapshot2)) in
  let documentIds2 := documentIdFromDocumentPath <$> documentNames2 in
  perform (Log (MsgGotSnapshot (length documentIds2) documentIds2)).

(** Line 91. *)
Definition documentRefsToDelete (this : BloomFilterWatchTest.t)
    (createdDocumentRefs : list DocumentReference.t)
  : list DocumentReference.t :=
  Array_slice createdDocumentRefs
    (Z.of_nat (length createdDocumentRefs) - documentDeleteCount this).

(** Lines 85-96. *)
Definition run (this : BloomFilterWatchTest.t) : Prog unit :=
  createdDocumentRefs ← createDocuments this;
  snapshot ← startTarget this;
  lift (assertDocumentsInSnapshot snapshot createdDocumentRefs);;
  deleteDocuments this (documentRefsToDelete this createdDocumentRefs);;
  pause this 10;;
  resumeWatchStream this snapshot None.
Arguments run : simpl never.

(** Steps 1 and 2 of [run] (lines 86-88): populate, then take the initial
    snapshot. The assertion of line 89 comes next. *)
Definition observe (this : BloomFilterWatchTest.t)
  : Prog (list DocumentReference.t * TargetSnapshot) :=
  createdDocumentRefs ← createDocuments this;
  snapshot ← startTarget this;
  mret (createdDocumentRefs, snapshot).

(** Steps 3 to 5 of [run] (lines 91-95): what follows the assertion. *)
Definition mutate_and_resume (this : BloomFilterWatchTest.t)
    (createdDocumentRefs : list DocumentReference.t)
    (snapshot : TargetSnapshot) : Prog unit :=
  deleteDocuments this (documentRefsToDelete this createdDocumentRefs);;
  pause this 10;;
  resumeWatchStream this snapshot None.

(** The document identifiers of a snapshot, and of the created documents,
    as sets. *)
Definition snapshot_documentIds (snapshot : TargetSnapshot) : gset string :=
  set_map documentIdFromDocumentPath (documentPaths snapshot).

Definition created_documentIds (createdDocumentRefs : list DocumentReference.t)
  : gset string :=
  list_to_set (DocumentReference.id <$> createdDocumentRefs).

(** The [finally] block of [runTest], lines 59-60. *)
Definition close_watch_stream : Prog unit :=
  perform (Log MsgClosingWatchStream);;
  await (perform WatchStream_close).

(** Lines 39-64. The [log] argument is the [Log] call;
    [createWatchStream] is synchronous, and an exception it throws
    propagates like a rejected promise. *)
Definition runTest
    (db : Firestore) (projectId host : string) (ssl : bool)
    (documentCreateCount_ documentDeleteCount_ : option Z)
    (collectionId_ : option string) : Prog unit :=
  perform (Log MsgTestStarted);;
  collectionId ←
    match collectionId_ with
    | Some c => mret c
    | None =>
        newId ← perform AutoId_newId;
        mret ("bloom_filter_watch_test_" +:+ newId)
    end;
  let documentCreateCount := nullish documentCreateCount_ 10 in
  let documentDeleteCount :=
    nullish documentDeleteCount_ (Math_ceil_half documentCreateCount) in
  if documentDeleteCount >? documentCreateCount
  then Throw (InvalidRunTestOptionsError documentDeleteCount
                                         documentCreateCount)
  else
    perform (Log (MsgCreatingWatchStream projectId host));;
    await (perform (createWatchStream projectId host ssl));;
    testRunner ← BloomFilterWatchTest_new db projectId host ssl
                   documentCreateCount documentDeleteCount collectionId;
    await (perform WatchStream_open);;
    try_finally (run testRunner) close_watch_stream;;
    perform (Log MsgTestCompleted).

End Probe.

(** ** Running a program against an environment *)

(** An environment answers every call and may change its own state. *)
Record Environment : Type := {
  World : Type;
  handler : ∀ c : Call, World → answer c * World
}.

(** One performed call with the answer it got. *)
Record Entry : Type := { entry_call : Call; entry_answer : answer entry_call }.

Fixpoint exec (env : Environment) {A} (p : Prog A) (w : World env)
  : list Entry * Completion A * World env :=
  match p with
  | Ret a => ([], Normal a, w)
  | Throw e => ([], Abrupt e, w)
  | Do c k =>
      let '(r, w1) := handler env c w in
      let '(t, o, w2) := exec env (k r) w1 in
      ({| entry_call := c; entry_answer := r |} :: t, o, w2)
  end.

Definition trace_of (env : Environment) {A} (p : Prog A) (w : World env)
  : list Entry := (exec env p w).1.1.

Definition outcome_of (env : Environment) {A} (p : Prog A) (w : World env)
  : Completion A := (exec env p w).1.2.

Definition calls (t : list Entry) : list Call := entry_call <$> t.

(** *** Observations on traces *)

Definition is_close (c : Call) : bool :=
  match c with WatchStream_close => true | _ => false end.

Definition is_log (c : Call) : bool :=
  match c with Log _ => true | _ => false end.

Definition is_delete (c : Call) : bool :=
  match c with DocumentUtil_deleteDocuments _ _ _ => true | _ => false end.

(** A call that touches the document store or the watch stream. *)
Definition is_store_or_stream_call (c : Call) : bool :=
  match c with
  | Log _ | AutoId_newId | setTimeout _ => false
  | _ => true
  end.

Definition count_calls (P : Call → bool) (t : list Entry) : nat :=
  length (filter (λ c, P c = true) (calls t)).

(** The reference lists handed to [DocumentUtil.deleteDocuments]. *)
Definition deleted_refs (t : list Entry) : list (list DocumentReference.t) :=
  omap (λ c, match c with
             | DocumentUtil_deleteDocuments _ _ refs => Some refs
             | _ => None
             end) (calls t).

(** The targets handed to [WatchStream.addTarget]. *)
Definition added_targets (t : list Entry) : list Target.t :=
  omap (λ c, match c with
             | WatchStream_addTarget spec => Some spec
             | _ => None
             end) (calls t).

(** The bit lengths logged as "Bloom filter size, in bits". *)
Definition logged_sizes (t : list Entry) : list Z :=
  omap (λ c, match c with
             | Log (MsgBloomFilterSize n) => Some n
             | _ => None
             end) (calls t).

(** The snapshot with which [await snapshotPromise] (target 2) resolved. *)
Definition resolved_snapshot (e : Entry) : option TargetSnapshot :=
  match e with
  | {| entry_call := Await_snapshot 2; entry_answer := Normal s |} => Some s
  | _ => None
  end.

(** The value with which the race resolved. *)
Definition resolved_race (e : Entry) : option RaceResult :=
  match e with
  | {| entry_call := Await_race 2; entry_answer := Normal r |} => Some r
  | _ => None
  end.

(** The watch stream was opened and [open()] resolved. *)
Definition open_succeeded (e : Entry) : bool :=
  match e with
  | {| entry_call := WatchStream_open; entry_answer := Normal _ |} => true
  | _ => false
  end.

(** Every call a program can make satisfies [P], whatever it is answered. *)
Inductive calls_only (P : Call → Prop) {A} : Prog A → Prop :=
| calls_only_Ret a : calls_only P (Ret a)
| calls_only_Throw e : calls_only P (Throw e)
| calls_only_Do c k :
    P c → (∀ r, calls_only P (k r)) → calls_only P (Do c k).

(** How a [finally] block combines the completion of the body with the
    completion of the finalizer. *)
Definition finally_completion {A} (body : Completion A)
    (finalizer : Completion unit) : Completion A :=
  match finalizer with
  | Normal _ => body
  | Abrupt e => Abrupt e
  end.

(** The winner of the race and the part of the trace that follows it. *)
Fixpoint after_race (t : list Entry) : option (RaceResult * list Entry) :=
  match t with
  | [] => None
  | e :: t' =>
      match resolved_race e with
      | Some result => Some (result, t')
      | None => after_race t'
      end
  end.

(** The first entry that is not a [log] call. *)
Fixpoint next_call_after_logs (t : list Entry) : option Entry :=
  match t with
  | [] => None
  | e :: t' => if is_log (entry_call e) then next_call_after_logs t' else Some e
  end.

(** The bit lengths [resumeWatchStream] is to log for a race result: the
    decoded length of a filter that came first, when it is not null. *)
Definition sizes_to_log (result : RaceResult) : list Z :=
  match result with
  | RaceFilter filter =>
      match getBloomFilterNumBits (Some filter) with
      | Normal (Some numBits) => [numBits]
      | _ => []
      end
  | RaceSnapshot _ => []
  end.

(** ** The widget query string ([queryString], lines 105-112 of the
    popup-redirect resolver that follows [Delay] in [delay.ts])

    Here a string stands for its UTF-8 bytes, which is what
    [encodeURIComponent] works on. *)

Definition char_percent : Ascii.ascii := Ascii.ascii_of_nat 37.
Definition char_ampersand : Ascii.ascii := Ascii.ascii_of_nat 38.
Definition char_equals : Ascii.ascii := Ascii.ascii_of_nat 61.

Definition in_range (lo hi n : N) : bool := ((lo <=? n) && (n <=? hi))%N.

(** The characters [encodeURIComponent] leaves alone:
    [A-Z a-z 0-9 - _ . ! ~ * ' ( )]. *)
Definition is_unreserved (c : Ascii.ascii) : bool :=
  let n := Ascii.N_of_ascii c in
  in_range 65 90 n || in_range 97 122 n || in_range 48 57 n ||
  bool_decide (n ∈ [45; 95; 46; 33; 126; 42; 39; 40; 41]%N).

(** One upper-case hexadecimal digit. *)
Definition hex_digit (n : N) : Ascii.ascii :=
  Ascii.ascii_of_N (if (n <? 10)%N then 48 + n else 55 + n)%N.

(** [encodeURIComponent]: every byte outside the unreserved set becomes
    [%XX]. *)
Fixpoint encodeURIComponent (s : string) : string :=
  match s with
  | EmptyString => EmptyString
  | String c rest =>
      if is_unreserved c
      then String c (encodeURIComponent rest)
      else
        let n := Ascii.N_of_ascii c in
        String char_percent
          (String (hex_digit (n / 16)%N)
             (String (hex_digit (n mod 16)%N) (encodeURIComponent rest)))
  end.

(** [array.join(separator)] *)
Fixpoint Array_join (separator : string) (l : list string) : string :=
  match l with
  | [] => ""
  | [x] => x
  | x :: rest => x +:+ separator +:+ Array_join separator rest
  end.

(** [params[key] || '']: an absent value and the empty string both give
    the empty string. *)
Definition or_empty (value : option string) : string :=
  match value with
  | Some v => v
  | None => ""
  end.

(** [queryString]; [params] lists the own properties of the object in the
    order of [Object.keys]. *)
Definition queryString (params : list (string * option string)) : string :=
  Array_join "&"
    ((λ kv, encodeURIComponent kv.1 +:+ "=" +:+
            encodeURIComponent (or_empty kv.2)) <$> params).

(** What a query string determines of its parameters: the keys and the
    values, with an absent value read as empty. *)
Definition present_params (params : list (string * option string))
  : list (string * string) :=
  (λ kv, (kv.1, or_empty kv.2)) <$> params.

(** *** Reading a query string back *)

Fixpoint string_forallb (P : Ascii.ascii → bool) (s : string) : bool :=
  match s with
  | EmptyString => true
  | String c rest => P c && string_forallb P rest
  end.

(** The characters a query string is made of. *)
Definition is_query_char (c : Ascii.ascii) : bool :=
  is_unreserved c || Ascii.eqb c char_percent ||
  Ascii.eqb c char_equals || Ascii.eqb c char_ampersand.

Definition hex_value (c : Ascii.ascii) : N :=
  let n := Ascii.N_of_ascii c in
  if in_range 48 57 n then (n - 48)%N
  else if in_range 65 70 n then (n - 55)%N
  else if in_range 97 102 n then (n - 87)%N
  else 0%N.

Fixpoint percent_decode (s : string) : string :=
  match s with
  | EmptyString => EmptyString
  | String c rest =>
      if Ascii.eqb c char_percent then
        match rest with
        | String h1 (String h2 rest') =>
            String (Ascii.ascii_of_N (hex_value h1 * 16 + hex_value h2)%N)
                   (percent_decode rest')
        | _ => String c (percent_decode rest)
        end
      else String c (percent_decode rest)
  end.

(** The pieces of [s] between occurrences of [separator]. *)
Fixpoint split_on (separator : Ascii.ascii) (s : string) : list string :=
  match s with
  | EmptyString => [EmptyString]
  | String c rest =>
      if Ascii.eqb c separator then EmptyString :: split_on separator rest
      else
        match split_on separator rest with
        | [] => [String c EmptyString]
        | piece :: pieces => String c piece :: pieces
        end
  end.

(** [s] cut at the first occurrence of [separator]. *)
Fixpoint break_at (separator : Ascii.ascii) (s : string) : string * string :=
  match s with
  | EmptyString => (EmptyString, EmptyString)
  | String c rest =>
      if Ascii.eqb c separator then (EmptyString, rest)
      else let '(before, after) := break_at separator rest in
           (String c before, after)
  end.

Definition parse_query (s : string) : list (string * string) :=
  match s with
  | EmptyString => []
  | _ =>
      (λ piece, let '(k, v) := break_at char_equals piece in
                (percent_decode k, percent_decode v))
        <$> split_on char_ampersand s
  end.

(** *** JavaScript strings

    A JavaScript string is a sequence of UTF-16 code units.
    [encodeURIComponent] first turns it into UTF-8, and throws a [URIError]
    when it holds a surrogate that is not part of a pair; the bytes are
    then encoded as above. [None] stands for the thrown [URIError]. *)

Definition is_lead_surrogate (c : N) : bool := in_range 55296 56319 c.
Definition is_trail_surrogate (c : N) : bool := in_range 56320 57343 c.

(** The code point of a surrogate pair. *)
Definition code_point_of_pair (lead trail : N) : N :=
  (65536 + (lead - 55296) * 1024 + (trail - 56320))%N.

(** The UTF-8 bytes of a code point. *)
Definition utf8_of_code_point (cp : N) : string :=
  let byte n := Ascii.ascii_of_N n in
  (if cp <? 128 then String (byte cp) ""
   else if cp <? 2048 then
     String (byte (192 + cp / 64)) (String (byte (128 + cp mod 64)) "")
   else if cp <? 65536 then
     String (byte (224 + cp / 4096))
       (String (byte (128 + (cp / 64) mod 64))
          (String (byte (128 + cp mod 64)) ""))
   else
     String (byte (240 + cp / 262144))
       (String (byte (128 + (cp / 4096) mod 64))
          (String (byte (128 + (cp / 64) mod 64))
             (String (byte (128 + cp mod 64)) ""))))%N.

Fixpoint utf8_encode (units : list N) : option string :=
  match units with
  | [] => Some ""
  | c :: rest =>
      if is_lead_surrogate c then
        match rest with
        | t :: rest' =>
            if is_trail_surrogate t
            then String.append (utf8_of_code_point (code_point_of_pair c t))
                   <$> utf8_encode rest'
            else None
        | [] => None
        end
      else if is_trail_surrogate c then None
      else String.append (utf8_of_code_point c) <$> utf8_encode rest
  end.

(** No surrogate outside a pair. *)
Fixpoint well_formed (units : list N) : bool :=
  match units with
  | [] => true
  | c :: rest =>
      if is_lead_surrogate c then
        match rest with
        | t :: rest' => is_trail_surrogate t && well_formed rest'
        | [] => false
        end
      else negb (is_trail_surrogate c) && well_formed rest
  end.

(** [encodeURIComponent] on a JavaScript string. *)
Definition encodeURIComponent_utf16 (units : list N) : option string :=
  encodeURIComponent <$> utf8_encode units.

(** [queryString] on JavaScript strings: the first key or value that
    [encodeURIComponent] refuses makes the whole call throw. *)
Definition queryString_utf16 (params : list (list N * option (list N)))
  : option string :=
  pieces ← mapM (λ kv, k ← encodeURIComponent_utf16 kv.1;
                       v ← encodeURIComponent_utf16 (default [] kv.2);
                       Some (k +:+ "=" +:+ v)) params;
  Some (Array_join "&" pieces).

(** The parameters as UTF-8 byte strings, when they all are well formed. *)
Definition utf8_params (params : list (list N * option (list N)))
  : option (list (string * option string)) :=
  mapM (λ kv, k ← utf8_encode kv.1;
              v ← utf8_encode (default [] kv.2);
              Some (k, Some v)) params.

(** *** Further observations on traces *)

(** The error with which a call was answered, if it failed. *)
Definition failure_of (e : Entry) : option Error :=
  match e with
  | {| entry_call := createWatchStream _ _ _; entry_answer := Abrupt err |}
  | {| entry_call := WatchStream_open; entry_answer := Abrupt err |}
  | {| entry_call := WatchStream_close; entry_answer := Abrupt err |}
  | {| entry_call := WatchStream_addTarget _; entry_answer := Abrupt err |}
  | {| entry_call := WatchStream_removeTarget _; entry_answer := Abrupt err |}
  | {| entry_call := Await_snapshot _; entry_answer := Abrupt err |}
  | {| entry_call := Await_race _; entry_answer := Abrupt err |}
  | {| entry_call := DocumentUtil_createDocuments _ _ _ _;
       entry_answer := Abrupt err |}
  | {| entry_call := DocumentUtil_deleteDocuments _ _ _;
       entry_answer := Abrupt err |} => Some err
  | _ => None
  end.

(** How the await of a target's snapshot was answered. *)
Definition snapshot_answer (e : Entry) : option (Z * Completion TargetSnapshot) :=
  match e with
  | {| entry_call := Await_snapshot targetId; entry_answer := a |} =>
      Some (targetId, a)
  | _ => None
  end.

(** The references [DocumentUtil.createDocuments] returned. *)
Definition created_answer (e : Entry) : option (list DocumentReference.t) :=
  match e with
  | {| entry_call := DocumentUtil_createDocuments _ _ _ _;
       entry_answer := Normal refs |} => Some refs
  | _ => None
  end.

(** The references created in a trace (none if nothing was created). *)
Definition created_of (t : list Entry) : list DocumentReference.t :=
  default [] (head (omap created_answer t)).

(** The snapshot with which the await for target 1 resolved. *)
Definition initial_snapshot_answer (e : Entry) : option TargetSnapshot :=
  match e with
  | {| entry_call := Await_snapshot 1; entry_answer := Normal s |} => Some s
  | _ => None
  end.

Definition initial_snapshot_of (t : list Entry) : TargetSnapshot :=
  default {| documentPaths := ∅ |} (head (omap initial_snapshot_answer t)).

(** The calls other than those to [log]. *)
Fixpoint non_log_calls (t : list Entry) : list Call :=
  match t with
  | [] => []
  | e :: t' =>
      if is_log (entry_call e) then non_log_calls t'
      else entry_call e :: non_log_calls t'
  end.

Definition is_removeTarget (c : Call) : bool :=
  match c with WatchStream_removeTarget _ => true | _ => false end.

Definition is_createDocuments (c : Call) : bool :=
  match c with DocumentUtil_createDocuments _ _ _ _ => true | _ => false end.

Definition is_createWatchStream (c : Call) : bool :=
  match c with createWatchStream _ _ _ => true | _ => false end.

(** The initial target of [startTarget], lines 123-129. *)
Definition initial_target (this : BloomFilterWatchTest.t) : Target.t :=
  {| Target.targetId := 1;
     Target.projectId := projectId this;
     Target.collectionId := collectionId this;
     Target.keyFilter := DOCUMENT_DATA_KEY;
     Target.valueFilter := uniqueId this;
     Target.resume := None |}.

(** The calls of a complete [run], in order, for the references and the
    initial snapshot the backend answered with. *)
Definition run_script (this : BloomFilterWatchTest.t)
    (created : list DocumentReference.t) (snapshot : TargetSnapshot)
  : list Call :=
  [ DocumentUtil_createDocuments (db this) (collectionId this)
      (documentCreateCount this) [(DOCUMENT_DATA_KEY, uniqueId this)];
    WatchStream_addTarget (initial_target this);
    WatchStream_getInitialSnapshot 1;
    Await_snapshot 1;
    WatchStream_removeTarget 1;
    DocumentUtil_deleteDocuments (db this) (collectionId this)
      (Array_slice created
         (Z.of_nat (length created) - documentDeleteCount this));
    setTimeout 10000;
    WatchStream_addTarget
      {| Target.targetId := 2;
         Target.projectId := projectId this;
         Target.collectionId := collectionId this;
         Target.keyFilter := DOCUMENT_DATA_KEY;
         Target.valueFilter := uniqueId this;
         Target.resume :=
           Some {| Target.from := snapshot;
                   Target.expectedCount :=
                     Z.of_nat (size (documentPaths snapshot)) |} |};
    WatchStream_getExistenceFilter 2;
    WatchStream_getInitialSnapshot 2;
    Await_race 2;
    Await_snapshot 2 ].

(** The tag a call writes to, or filters on: collection, key and value. *)
Definition tag_of (c : Call) : option (string * string * string) :=
  match c with
  | DocumentUtil_createDocuments _ collection _ [(key, value)] =>
      Some (collection, key, value)
  | WatchStream_addTarget spec =>
      Some (Target.collectionId spec, Target.keyFilter spec,
            Target.valueFilter spec)
  | _ => None
  end.

(** ** Sample inputs and a simulated backend *)

Definition filter_of_bits (b : option BitSequence) : ExistenceFilter :=
  {| targetId := Some 2; count := Some 5;
     unchangedNames := Some {| bits := b; hashCount := Some 10 |} |}.

Definition filter_4_bytes (p : Z) : ExistenceFilter :=
  filter_of_bits (Some {| bitmap := Some "abcd"; padding := Some p |}).

Definition filter_without_names : ExistenceFilter :=
  {| targetId := Some 2; count := Some 5; unchangedNames := None |}.

Fixpoint contains_slash (s : string) : bool :=
  match s with
  | EmptyString => false
  | String c rest => Ascii.eqb c (Ascii.ascii_of_nat 47) || contains_slash rest
  end.

(** The last segment of a slash-separated path. *)
Fixpoint last_segment (s : string) : string :=
  match s with
  | EmptyString => EmptyString
  | String c rest =>
      if contains_slash rest then last_segment rest
      else if Ascii.eqb c (Ascii.ascii_of_nat 47) then rest else s
  end.

Definition sample_util : Util :=
  {| documentIdFromDocumentPath := last_segment |}.

Definition sample_ids : list string :=
  ["doc-d"; "doc-a"; "doc-c"; "doc-b"; "doc-e"].

Definition sample_ref (collectionId id : string) : DocumentReference.t :=
  {| DocumentReference.id := id;
     DocumentReference.path := collectionId +:+ "/" +:+ id |}.

(** The simulated store holds the references of the live documents. *)
Definition sim_snapshot (store : list DocumentReference.t) : TargetSnapshot :=
  {| documentPaths := list_to_set (DocumentReference.path <$> store) |}.

Definition sim_delete (refs store : list DocumentReference.t)
  : list DocumentReference.t :=
  filter (λ r, DocumentReference.path r ∉ (DocumentReference.path <$> refs))
         store.

(** A backend that creates, lists and deletes documents faithfully, lets
    the calls selected by [fails] fail, and resolves the race as [race]
    says. *)
Definition sim_handler (fails : Call → bool) (race : RaceResult)
    (c : Call) (store : list DocumentReference.t)
  : answer c * list DocumentReference.t :=
  let failure {T} : Completion T := Abrupt (RemoteError 14) in
  match c as c0 return answer c0 * list DocumentReference.t with
  | Log _ => ((), store)
  | AutoId_newId => ("auto-id", store)
  | createWatchStream _ _ _ =>
      (if fails c then failure else Normal (), store)
  | WatchStream_open => (if fails c then failure else Normal (), store)
  | WatchStream_close => (if fails c then failure else Normal (), store)
  | WatchStream_addTarget _ =>
      (if fails c then failure else Normal (), store)
  | WatchStream_removeTarget _ =>
      (if fails c then failure else Normal (), store)
  | WatchStream_getInitialSnapshot _ => ((), store)
  | WatchStream_getExistenceFilter _ => ((), store)
  | Await_snapshot _ =>
      (if fails c then failure else Normal (sim_snapshot store), store)
  | Await_race _ => (if fails c then failure else Normal race, store)
  | DocumentUtil_createDocuments _ collectionId count _ =>
      if fails c then (failure, store)
      else
        let refs := sample_ref collectionId
                      <$> take (Z.to_nat count) sample_ids in
        (Normal refs, store ++ refs)
  | DocumentUtil_deleteDocuments _ _ refs =>
      if fails c then (failure, store)
      else (Normal (), sim_delete refs store)
  | setTimeout _ => ((), store)
  end.

Definition sim_env (fails : Call → bool) (race : RaceResult) : Environment :=
  {| World := list DocumentReference.t; handler := sim_handler fails race |}.

Definition never_fails (c : Call) : bool := false.

Definition delete_fails (c : Call) : bool :=
  match c with DocumentUtil_deleteDocuments _ _ _ => true | _ => false end.

Definition delete_and_close_fail (c : Call) : bool :=
  match c with
  | DocumentUtil_deleteDocuments _ _ _ | WatchStream_close => true
  | _ => false
  end.

Definition sample_db : Firestore := FirestoreApp "[DEFAULT]".

Definition sample_runner (n d : Z) : BloomFilterWatchTest.t :=
  {| db := sample_db; projectId := "demo-project";
     host := "localhost:8080"; ssl := false;
     documentCreateCount := n; documentDeleteCount := d;
     collectionId := "probe"; uniqueId := "auto-id" |}.

(** The whole probe against the simulated backend. *)
Definition sample_runTest (fails : Call → bool) (race : RaceResult)
    (n d : option Z) : list Entry * Completion unit * list DocumentReference.t :=
  exec (sim_env fails race)
       (runTest (H := sample_util) sample_db "demo-project" "localhost:8080"
                false n d (Some "probe")) [].

Definition sample_created : list DocumentReference.t :=
  sample_ref "probe" <$> ["doc-d"; "doc-a"; "doc-c"].

Definition sample_race : RaceResult := RaceFilter (filter_4_bytes 3).

Definition sample_resume (fails : Call → bool) (race : RaceResult)
  : Prog unit :=
  resumeWatchStream (H := sample_util) (sample_runner 3 2)
                    (sim_snapshot sample_created) None.

Definition open_fails (c : Call) : bool :=
  match c with WatchStream_open => true | _ => false end.

(** The failure, with a given code, of a call that can fail. *)
Definition fail_with (code : Z) (c : Call) : option (answer c) :=
  match c as c0 return option (answer c0) with
  | createWatchStream _ _ _ => Some (Abrupt (RemoteError code))
  | WatchStream_open => Some (Abrupt (RemoteError code))
  | WatchStream_close => Some (Abrupt (RemoteError code))
  | WatchStream_addTarget _ => Some (Abrupt (RemoteError code))
  | WatchStream_removeTarget _ => Some (Abrupt (RemoteError code))
  | Await_snapshot _ => Some (Abrupt (RemoteError code))
  | Await_race _ => Some (Abrupt (RemoteError code))
  | DocumentUtil_createDocuments _ _ _ _ => Some (Abrupt (RemoteError code))
  | DocumentUtil_deleteDocuments _ _ _ => Some (Abrupt (RemoteError code))
  | Log _ | AutoId_newId | WatchStream_getInitialSnapshot _
  | WatchStream_getExistenceFilter _ | setTimeout _ => None
  end.

(** The simulated backend, with the calls selected by [codes] failing, each
    with its own error code. *)
Definition coded_handler (codes : Call → option Z) (race : RaceResult)
    (c : Call) (store : list DocumentReference.t)
  : answer c * list DocumentReference.t :=
  match codes c with
  | Some code =>
      match fail_with code c with
      | Some failure => (failure, store)
      | None => sim_handler never_fails race c store
      end
  | None => sim_handler never_fails race c store
  end.

Definition coded_env (codes : Call → option Z) (race : RaceResult)
  : Environment :=
  {| World := list DocumentReference.t; handler := coded_handler codes race |}.

(** The deletion fails with code 1 and [close()] with code 2. *)
Definition delete_1_close_2 (c : Call) : option Z :=
  match c with
  | DocumentUtil_deleteDocuments _ _ _ => Some 1
  | WatchStream_close => Some 2
  | _ => None
  end.

Definition double_failure_env : Environment :=
  coded_env delete_1_close_2 sample_race.

Definition double_failure_probe : Prog unit :=
  runTest (H := sample_util) sample_db "demo-project" "localhost:8080"
          false (Some 3) (Some 1) (Some "probe").

(** ** Properties of [getBloomFilterNumBits] *)

Lemma getBloomFilterNumBits_names f names :
  unchangedNames f = Some names →
  getBloomFilterNumBits (Some f) =
    if (padding_of names <? 0) || (padding_of names >? 7)
    then Normal None
    else Normal (Some (Z.of_nat (String.length (bitmap_of names)) * 8
                       - padding_of names)).
Proof.
  intros Hn. unfold getBloomFilterNumBits, padding_of, bitmap_of. simpl.
  rewrite Hn. reflexivity.
Qed.

Lemma getBloomFilterNumBits_no_names ef :
  optional_chain ef unchangedNames = None →
  getBloomFilterNumBits ef = Normal None.
Proof. intros H. unfold getBloomFilterNumBits. by rewrite H. Qed.

Lemma out_of_range_spec p :
  (p <? 0) || (p >? 7) = true ↔ p < 0 ∨ 7 < p.
Proof.
  rewrite orb_true_iff, Z.ltb_lt, Z.gtb_ltb, Z.ltb_lt. reflexivity.
Qed.

Lemma in_range_spec p :
  (p <? 0) || (p >? 7) = false ↔ 0 ≤ p ≤ 7.
Proof.
  rewrite orb_false_iff, Z.ltb_ge, Z.gtb_ltb, Z.ltb_ge. lia.
Qed.

(** C1. Bit-length decoding: the result is null when [unchangedNames] is
    missing (in particular when the whole filter is) and when the padding
    is outside [0,7]; otherwise it is the bitmap length times 8 minus the
    padding. A 4-byte bitmap gives 29 with padding 3 and null with
    padding 8; a missing filter gives null. *)
Theorem getBloomFilterNumBits_decoding (ef : option ExistenceFilter) :
  (optional_chain ef unchangedNames = None →
     getBloomFilterNumBits ef = Normal None) ∧
  (∀ f names b p,
     ef = Some f → unchangedNames f = Some names →
     bits names = Some b → padding b = Some p →
     p < 0 ∨ 7 < p →
     getBloomFilterNumBits ef = Normal None) ∧
  (∀ f names,
     ef = Some f → unchangedNames f = Some names →
     0 ≤ padding_of names ≤ 7 →
     getBloomFilterNumBits ef =
       Normal (Some (Z.of_nat (String.length (bitmap_of names)) * 8
                     - padding_of names))) ∧
  getBloomFilterNumBits (Some (filter_4_bytes 3)) = Normal (Some 29) ∧
  getBloomFilterNumBits (Some (filter_4_bytes 8)) = Normal None ∧
  getBloomFilterNumBits None = Normal None.
Proof.
  split; [apply getBloomFilterNumBits_no_names|].
  split.
  { intros f names b p -> Hn Hb Hp Hout.
    rewrite (getBloomFilterNumBits_names f names Hn).
    assert (padding_of names = p) as ->.
    { unfold padding_of. rewrite Hb. simpl. by rewrite Hp. }
    apply out_of_range_spec in Hout. by rewrite Hout. }
  split.
  { intros f names -> Hn Hin.
    rewrite (getBloomFilterNumBits_names f names Hn).
    apply in_range_spec in Hin. by rewrite Hin. }
  repeat split; reflexivity.
Qed.

(** Four bytes and padding 5 are in range: 27 bits. *)
Lemma getBloomFilterNumBits_decoding_witness :
  getBloomFilterNumBits (Some (filter_4_bytes 5)) = Normal (Some 27).
Proof.
  pose proof (getBloomFilterNumBits_decoding (Some (filter_4_bytes 5)))
    as (_ & _ & Hin & _).
  apply (Hin (filter_4_bytes 5) {| bits := Some {| bitmap := Some "abcd";
                                                   padding := Some 5 |};
                                   hashCount := Some 10 |});
    [reflexivity | reflexivity | vm_compute; split; discriminate].
Defined.

(** C3, as stated, fails: with [unchangedNames] present and [bits] missing
    the result is 0, not null. *)
Lemma getBloomFilterNumBits_missing_bits_not_null :
  some_field_missing (Some (filter_of_bits None)) ∧
  getBloomFilterNumBits (Some (filter_of_bits None)) = Normal (Some 0) ∧
  getBloomFilterNumBits (Some (filter_of_bits None)) ≠ Normal None.
Proof. split; [exact I|]. split; [reflexivity | discriminate]. Qed.

(** On filters of the declared types the run-time reading agrees with the
    typed one. *)
Lemma getBloomFilterNumBits_typed (ef : option ExistenceFilter) :
  Dynamic.getBloomFilterNumBits
    (Dynamic.of_option (ExistenceFilter_to_js <$> ef))
  = getBloomFilterNumBits ef.
Proof.
  destruct ef as [[tid cnt [[[[[bm|] [p|]]|] hc]|]]|]; reflexivity.
Qed.

Lemma Dynamic_getBloomFilterNumBits_names
    (f : Dynamic.ExistenceFilter) (names : Dynamic.BloomFilter) :
  Dynamic.unchangedNames f = Dynamic.Value names →
  Dynamic.getBloomFilterNumBits (Dynamic.Value f) =
    if (Dynamic.padding_of names <? 0) || (Dynamic.padding_of names >? 7)
    then Normal None
    else Normal (Some (Z.of_nat (String.length (Dynamic.bitmap_of names)) * 8
                       - Dynamic.padding_of names)).
Proof.
  intros Hn. unfold Dynamic.getBloomFilterNumBits, Dynamic.padding_of,
    Dynamic.bitmap_of. simpl. rewrite Hn. reflexivity.
Qed.

(** The guard of line 182 lets [unchangedNames: null] through, and line 185
    then reads a property of [null]. *)
Example getBloomFilterNumBits_null_names :
  Dynamic.getBloomFilterNumBits
    (Dynamic.Value {| Dynamic.unchangedNames := Dynamic.Null |})
  = Abrupt TypeError.
Proof. reflexivity. Qed.

(** C3 (amended). On every input whose [unchangedNames] is not [null] the
    computation does not raise. It returns null when the filter is missing
    ([undefined] or [null]) or its [unchangedNames] is absent, and when the
    padding is outside [0,7]. A missing or [null] [bits], [bitmap] or
    [padding] is not reported as null: it is replaced by the empty bitmap
    and padding 0, and the result is the bitmap length times 8 minus the
    padding. *)
Theorem getBloomFilterNumBits_no_raise_unless_null
    (ef : Dynamic.Js Dynamic.ExistenceFilter) :
  Dynamic.names_not_null ef →
  (∃ r, Dynamic.getBloomFilterNumBits ef = Normal r) ∧
  (Dynamic.optional_chain ef Dynamic.unchangedNames = Dynamic.Undefined →
     Dynamic.getBloomFilterNumBits ef = Normal None) ∧
  (∀ f names,
     ef = Dynamic.Value f →
     Dynamic.unchangedNames f = Dynamic.Value names →
     (Dynamic.padding_of names < 0 ∨ 7 < Dynamic.padding_of names →
        Dynamic.getBloomFilterNumBits ef = Normal None) ∧
     (Dynamic.bits names = Dynamic.Undefined ∨
      Dynamic.bits names = Dynamic.Null →
        Dynamic.bitmap_of names = "" ∧ Dynamic.padding_of names = 0 ∧
        Dynamic.getBloomFilterNumBits ef = Normal (Some 0)) ∧
     (∀ b, Dynamic.bits names = Dynamic.Value b →
        Dynamic.bitmap_of names = Dynamic.nullish (Dynamic.bitmap b) "" ∧
        Dynamic.padding_of names = Dynamic.nullish (Dynamic.padding b) 0) ∧
     (0 ≤ Dynamic.padding_of names ≤ 7 →
        Dynamic.getBloomFilterNumBits ef =
          Normal (Some (Z.of_nat (String.length (Dynamic.bitmap_of names)) * 8
                        - Dynamic.padding_of names)))).
Proof.
  intros Hnot_null.
  assert (Dynamic.optional_chain ef Dynamic.unchangedNames
            = Dynamic.Undefined →
          Dynamic.getBloomFilterNumBits ef = Normal None) as Hundefined.
  { intros Hu. unfold Dynamic.getBloomFilterNumBits. by rewrite Hu. }
  split.
  { destruct ef as [| |f]; [by eexists..|].
    destruct (Dynamic.unchangedNames f) as [| |names] eqn:Hn.
    - exists None. by apply Hundefined.
    - by destruct Hnot_null.
    - rewrite (Dynamic_getBloomFilterNumBits_names f names Hn).
      destruct (_ || _); by eexists. }
  split; [exact Hundefined|].
  intros f names -> Hn.
  rewrite (Dynamic_getBloomFilterNumBits_names f names Hn).
  split; [intros Hout%out_of_range_spec; by rewrite Hout|].
  split.
  { intros Hb. unfold Dynamic.bitmap_of, Dynamic.padding_of.
    by destruct Hb as [-> | ->]. }
  split; [intros b Hb; unfold Dynamic.bitmap_of, Dynamic.padding_of;
          by rewrite Hb|].
  intros Hin%in_range_spec. by rewrite Hin.
Qed.

(** A filter whose [bits] is [null]: 0 bits, and no exception. *)
Lemma getBloomFilterNumBits_no_raise_unless_null_witness :
  Dynamic.getBloomFilterNumBits
    (Dynamic.Value
       {| Dynamic.unchangedNames :=
            Dynamic.Value {| Dynamic.bits := Dynamic.Null |} |})
  = Normal (Some 0).
Proof.
  destruct (getBloomFilterNumBits_no_raise_unless_null
              (Dynamic.Value
                 {| Dynamic.unchangedNames :=
                      Dynamic.Value {| Dynamic.bits := Dynamic.Null |} |}))
    as (_ & _ & Hnames).
  { discriminate. }
  destruct (Hnames _ _ eq_refl eq_refl) as (_ & Hdefault & _).
  destruct (Hdefault (or_intror eq_refl)) as (_ & _ & Hzero).
  exact Hzero.
Defined.

(** C9. With [unchangedNames] present and [bits] missing the result is 0
    (empty bitmap, padding 0), not null; null is returned only when
    [unchangedNames] is absent or the padding is outside [0,7]. *)
Theorem getBloomFilterNumBits_bits_missing (ef : option ExistenceFilter) :
  (∀ f names,
     ef = Some f → unchangedNames f = Some names → bits names = None →
     getBloomFilterNumBits ef = Normal (Some 0)) ∧
  (getBloomFilterNumBits ef = Normal None →
     optional_chain ef unchangedNames = None ∨
     ∃ f names b p,
       ef = Some f ∧ unchangedNames f = Some names ∧
       bits names = Some b ∧ padding b = Some p ∧ (p < 0 ∨ 7 < p)).
Proof.
  split.
  { intros f names -> Hn Hb.
    rewrite (getBloomFilterNumBits_names f names Hn).
    unfold padding_of, bitmap_of. rewrite Hb. reflexivity. }
  destruct ef as [f|]; [|by left].
  destruct (unchangedNames f) as [names|] eqn:Hn; [|by left].
  rewrite (getBloomFilterNumBits_names f names Hn).
  destruct (_ || _) eqn:Hrange; [|discriminate].
  intros _. right. apply out_of_range_spec in Hrange.
  unfold padding_of in Hrange.
  destruct (bits names) as [b|] eqn:Hb; simpl in Hrange; [|lia].
  destruct (padding b) as [p|] eqn:Hp; simpl in Hrange; [|lia].
  by exists f, names, b, p.
Qed.

(** [unchangedNames] without [bits]: 0. *)
Lemma getBloomFilterNumBits_bits_missing_witness :
  getBloomFilterNumBits (Some (filter_of_bits None)) = Normal (Some 0).
Proof.
  pose proof (getBloomFilterNumBits_bits_missing (Some (filter_of_bits None)))
    as [Hzero _].
  apply (Hzero (filter_of_bits None) {| bits := None; hashCount := Some 10 |});
    reflexivity.
Defined.

(** C10. The constructor throws when [shortDelay > longDelay]; every
    constructed [Delay] has [shortDelay <= longDelay], and [get()] never
    exceeds [longDelay]: offline it is [min(5000, shortDelay)], online it
    is [longDelay] on mobile environments and [shortDelay] otherwise. *)
Theorem Delay_get_within_longDelay
    (short long : Z) (isMobileCordova isReactNative : bool) :
  (long < short →
     ∃ e, Delay.new short long isMobileCordova isReactNative = Abrupt e) ∧
  (∀ d, Delay.new short long isMobileCordova isReactNative = Normal d →
     Delay.shortDelay d = short ∧ Delay.longDelay d = long ∧
     Delay.isMobile d = isMobileCordova || isReactNative ∧
     Delay.shortDelay d ≤ Delay.longDelay d ∧
     (∀ isOnline, Delay.get d isOnline ≤ Delay.longDelay d) ∧
     Delay.get d false = Z.min 5000 (Delay.shortDelay d) ∧
     Delay.get d true =
       if Delay.isMobile d then Delay.longDelay d else Delay.shortDelay d).
Proof.
  unfold Delay.new. rewrite Z.gtb_ltb.
  destruct (long <? short) eqn:Hcmp.
  - split; [by eexists | discriminate].
  - apply Z.ltb_ge in Hcmp. split; [lia|].
    intros d [= <-]. simpl. repeat split; try done.
    intros [|]; unfold Delay.get; simpl; [destruct (_ || _)|]; lia.
Qed.

(** A [Delay(1000, 30000)] on React Native. *)
Lemma Delay_get_within_longDelay_witness :
  ∃ d, Delay.new 1000 30000 false true = Normal d ∧
       Delay.get d true = 30000 ∧ Delay.get d false = 1000.
Proof.
  eexists. split; [reflexivity|].
  pose proof (Delay_get_within_longDelay 1000 30000 false true) as [_ H].
  destruct (H _ eq_refl) as (_ & _ & _ & _ & _ & Hoff & Hon).
  split; [exact Hon | exact Hoff].
Defined.

(** ** More on [getBloomFilterNumBits] and [Delay] *)

(** X1. A decoded bit length is never below -7, and it is negative exactly
    when the bitmap is empty and the padding positive: the padding is only
    checked against [0,7], not against the size of the bitmap. *)
Theorem getBloomFilterNumBits_range
    (ef : option ExistenceFilter) (numBits : Z) :
  getBloomFilterNumBits ef = Normal (Some numBits) →
  ∃ f names,
    ef = Some f ∧ unchangedNames f = Some names ∧
    0 ≤ padding_of names ≤ 7 ∧
    numBits + padding_of names
      = 8 * Z.of_nat (String.length (bitmap_of names)) ∧
    -7 ≤ numBits ∧
    (numBits < 0 ↔ bitmap_of names = "" ∧ 0 < padding_of names).
Proof.
  destruct ef as [f|]; [|discriminate].
  destruct (unchangedNames f) as [names|] eqn:Hn.
  - rewrite (getBloomFilterNumBits_names f names Hn).
    destruct (_ || _) eqn:Hrange; [discriminate|].
    apply in_range_spec in Hrange. intros [= <-].
    exists f, names. split; [done|]. split; [done|]. split; [done|].
    split; [lia|]. split; [lia|]. split.
    + intros Hneg. destruct (bitmap_of names) as [|c s]; simpl in Hneg.
      * split; [done | lia].
      * lia.
    + intros [-> Hpos]. simpl. lia.
  - by rewrite getBloomFilterNumBits_no_names.
Qed.

(** An empty bitmap with padding 3 decodes to -3 bits. *)
Lemma getBloomFilterNumBits_range_witness :
  getBloomFilterNumBits
    (Some (filter_of_bits (Some {| bitmap := None; padding := Some 3 |})))
    = Normal (Some (-3)) ∧ -7 ≤ -3.
Proof.
  split; [reflexivity|].
  destruct (getBloomFilterNumBits_range
              (Some (filter_of_bits
                       (Some {| bitmap := None; padding := Some 3 |})))
              (-3) eq_refl)
    as (f & names & _ & _ & _ & _ & Hlow & _).
  exact Hlow.
Defined.

(** X2. For every constructed [Delay], being offline never lengthens the
    delay: the offline delay is at most the online delay, and at most
    5000 ms; the online delay is one of the two configured delays. *)
Theorem Delay_offline_not_longer
    (short long : Z) (isMobileCordova isReactNative : bool) (d : Delay.t) :
  Delay.new short long isMobileCordova isReactNative = Normal d →
  Delay.get d false ≤ Delay.get d true ∧
  Delay.get d false ≤ 5000 ∧
  (Delay.get d false = short ∨ Delay.get d false = 5000) ∧
  (Delay.get d true = short ∨ Delay.get d true = long).
Proof.
  unfold Delay.new. rewrite Z.gtb_ltb.
  destruct (long <? short) eqn:Hcmp; [discriminate|].
  apply Z.ltb_ge in Hcmp. intros [= <-]. unfold Delay.get. simpl.
  destruct (isMobileCordova || isReactNative); lia.
Qed.

(** A desktop [Delay(8000, 60000)]: 5000 ms offline, 8000 ms online. *)
Lemma Delay_offline_not_longer_witness :
  ∃ d, Delay.new 8000 60000 false false = Normal d ∧
       Delay.get d false ≤ Delay.get d true.
Proof.
  eexists. split; [reflexivity|].
  exact (proj1 (Delay_offline_not_longer 8000 60000 false false _ eq_refl)).
Defined.

(** ** [queryString] *)

Lemma append_cons (c : Ascii.ascii) (a b : string) :
  String c a +:+ b = String c (a +:+ b).
Proof. reflexivity. Qed.

Lemma append_nil (b : string) : "" +:+ b = b.
Proof. reflexivity. Qed.

Lemma string_forallb_app (P : Ascii.ascii → bool) (a b : string) :
  string_forallb P (a +:+ b) = string_forallb P a && string_forallb P b.
Proof.
  induction a as [|c a IH]; [done|].
  rewrite append_cons. simpl. by rewrite IH, andb_assoc.
Qed.

Lemma string_forallb_impl (P Q : Ascii.ascii → bool) (s : string) :
  (∀ c, P c = true → Q c = true) →
  string_forallb P s = true → string_forallb Q s = true.
Proof.
  intros HPQ. induction s as [|c s IH]; [done|]. simpl.
  rewrite !andb_true_iff. intros [Hc Hs]. auto.
Qed.

(** Case analysis on the 256 bytes. *)
Ltac each_byte c := destruct c as [[] [] [] [] [] [] [] []].

Lemma hex_digits_unreserved (c : Ascii.ascii) :
  is_unreserved (hex_digit (Ascii.N_of_ascii c / 16)) = true ∧
  is_unreserved (hex_digit (Ascii.N_of_ascii c mod 16)) = true.
Proof. each_byte c; vm_compute; done. Qed.

Lemma hex_digits_value (c : Ascii.ascii) :
  Ascii.ascii_of_N
    (hex_value (hex_digit (Ascii.N_of_ascii c / 16)) * 16
     + hex_value (hex_digit (Ascii.N_of_ascii c mod 16)))
  = c.
Proof. each_byte c; vm_compute; done. Qed.

Lemma unreserved_not_percent (c : Ascii.ascii) :
  is_unreserved c = true → Ascii.eqb c char_percent = false.
Proof. each_byte c; vm_compute; done. Qed.

Lemma unreserved_not_separator (c : Ascii.ascii) :
  is_unreserved c || Ascii.eqb c char_percent = true →
  Ascii.eqb c char_equals = false ∧ Ascii.eqb c char_ampersand = false.
Proof. each_byte c; vm_compute; done. Qed.

(** An encoded component consists of unreserved characters and [%]. *)
Lemma encodeURIComponent_chars (s : string) :
  string_forallb (λ c, is_unreserved c || Ascii.eqb c char_percent)
                 (encodeURIComponent s) = true.
Proof.
  induction s as [|c s IH]; [done|]. simpl.
  destruct (is_unreserved c) eqn:Hc; simpl.
  - by rewrite Hc.
  - destruct (hex_digits_unreserved c) as [-> ->]. done.
Qed.

Lemma encodeURIComponent_no_separator (s : string) :
  string_forallb (λ c, negb (Ascii.eqb c char_equals))
                 (encodeURIComponent s) = true ∧
  string_forallb (λ c, negb (Ascii.eqb c char_ampersand))
                 (encodeURIComponent s) = true.
Proof.
  split; eapply string_forallb_impl; try apply encodeURIComponent_chars.
  - intros c Hc. by destruct (unreserved_not_separator c Hc) as [-> _].
  - intros c Hc. by destruct (unreserved_not_separator c Hc) as [_ ->].
Qed.

Lemma percent_decode_encode (s : string) :
  percent_decode (encodeURIComponent s) = s.
Proof.
  induction s as [|c s IH]; [done|]. simpl.
  destruct (is_unreserved c) eqn:Hc.
  - simpl. rewrite (unreserved_not_percent c Hc). by rewrite IH.
  - simpl. change (Ascii.eqb char_percent char_percent) with true.
    cbv beta iota. by rewrite hex_digits_value, IH.
Qed.

Lemma break_at_append (separator : Ascii.ascii) (a b : string) :
  string_forallb (λ c, negb (Ascii.eqb c separator)) a = true →
  break_at separator (a +:+ String separator b) = (a, b).
Proof.
  induction a as [|c a IH]; simpl.
  - intros _. rewrite ?append_nil. simpl. by rewrite Ascii.eqb_refl.
  - rewrite andb_true_iff, negb_true_iff. intros [Hc Ha].
    rewrite ?append_cons. simpl. by rewrite Hc, IH.
Qed.

Lemma split_on_none (separator : Ascii.ascii) (a : string) :
  string_forallb (λ c, negb (Ascii.eqb c separator)) a = true →
  split_on separator a = [a].
Proof.
  induction a as [|c a IH]; simpl; [done|].
  rewrite andb_true_iff, negb_true_iff. intros [Hc Ha].
  by rewrite Hc, IH.
Qed.

Lemma split_on_append (separator : Ascii.ascii) (a b : string) :
  string_forallb (λ c, negb (Ascii.eqb c separator)) a = true →
  split_on separator (a +:+ String separator b) = a :: split_on separator b.
Proof.
  induction a as [|c a IH]; simpl.
  - intros _. rewrite ?append_nil. simpl. by rewrite Ascii.eqb_refl.
  - rewrite andb_true_iff, negb_true_iff. intros [Hc Ha].
    rewrite ?append_cons. simpl. by rewrite Hc, IH.
Qed.

Lemma split_on_join (separator : Ascii.ascii) (pieces : list string) :
  pieces ≠ [] →
  Forall (λ p, string_forallb (λ c, negb (Ascii.eqb c separator)) p = true)
         pieces →
  split_on separator (Array_join (String separator "") pieces) = pieces.
Proof.
  intros Hne Hall. induction Hall as [|p rest Hp Hrest IH]; [done|].
  destruct rest as [|q rest].
  - simpl. by apply split_on_none.
  - change (Array_join (String separator "") (p :: q :: rest))
      with (p +:+ String separator "" +:+
            Array_join (String separator "") (q :: rest)).
    change (String separator "" +:+ ?x) with (String separator x).
    rewrite split_on_append by done. by rewrite IH.
Qed.

Lemma query_piece_no_ampersand (k v : string) :
  string_forallb (λ c, negb (Ascii.eqb c char_ampersand))
    (encodeURIComponent k +:+ "=" +:+ encodeURIComponent v) = true.
Proof.
  rewrite !string_forallb_app.
  destruct (encodeURIComponent_no_separator k) as [_ ->].
  destruct (encodeURIComponent_no_separator v) as [_ ->]. done.
Qed.

Lemma query_piece_parse (k v : string) :
  break_at char_equals
    (encodeURIComponent k +:+ "=" +:+ encodeURIComponent v)
  = (encodeURIComponent k, encodeURIComponent v).
Proof.
  change ("=" +:+ ?x) with (String char_equals x).
  apply break_at_append. apply encodeURIComponent_no_separator.
Qed.

Lemma append_not_empty (a : string) (c : Ascii.ascii) (b : string) :
  a +:+ String c b ≠ "".
Proof. by destruct a. Qed.

Lemma Array_join_not_empty (separator p : string) (rest : list string) :
  p ≠ "" → Array_join separator (p :: rest) ≠ "".
Proof.
  intros Hp. destruct rest as [|q rest]; [done|].
  destruct p as [|c p]; [done|].
  change (Array_join separator (String c p :: q :: rest))
    with (String c (p +:+ separator +:+ Array_join separator (q :: rest))).
  done.
Qed.

(** Reading a query string back gives the parameters it was made from. *)
Lemma parse_query_queryString (params : list (string * option string)) :
  parse_query (queryString params) = present_params params.
Proof.
  unfold queryString, present_params.
  destruct params as [|kv params]; [done|].
  set (piece := λ kv : string * option string,
         encodeURIComponent kv.1 +:+ "=" +:+
         encodeURIComponent (or_empty kv.2)).
  assert (Array_join "&" (piece <$> kv :: params) ≠ "") as Hne.
  { rewrite fmap_cons. apply Array_join_not_empty. unfold piece.
    change ("=" +:+ ?x) with (String char_equals x).
    apply append_not_empty. }
  unfold parse_query.
  destruct (Array_join "&" (piece <$> kv :: params)) as [|c s] eqn:Hj;
    [done|].
  rewrite <- Hj.
  change "&" with (String char_ampersand "").
  rewrite split_on_join.
  - rewrite <- list_fmap_compose. apply list_fmap_ext. intros _ [k v] _.
    unfold piece. simpl. rewrite query_piece_parse.
    by rewrite !percent_decode_encode.
  - done.
  - apply Forall_fmap, Forall_forall. intros [k v] _.
    apply query_piece_no_ampersand.
Qed.

(** On byte strings: a query string is made of unreserved characters, [%],
    [=] and [&] only. *)
Lemma queryString_bytes_alphabet (params : list (string * option string)) :
  string_forallb is_query_char (queryString params) = true.
Proof.
  unfold queryString.
  assert (∀ k v, string_forallb is_query_char
                   (encodeURIComponent k +:+ "=" +:+ encodeURIComponent v)
                 = true) as Hpiece.
  { intros k v. rewrite !string_forallb_app.
    assert (∀ s, string_forallb is_query_char (encodeURIComponent s) = true)
      as Henc.
    { intros s. eapply string_forallb_impl; [|apply encodeURIComponent_chars].
      intros c Hc. unfold is_query_char. by rewrite Hc. }
    by rewrite !Henc. }
  induction params as [|[k v] params IH]; [done|].
  destruct params as [|kv' params]; [apply Hpiece|].
  change (string_forallb is_query_char
            ((encodeURIComponent k +:+ "=" +:+
              encodeURIComponent (or_empty v)) +:+ "&" +:+
             Array_join "&"
               ((λ kv, encodeURIComponent kv.1 +:+ "=" +:+
                       encodeURIComponent (or_empty kv.2))
                  <$> kv' :: params)) = true).
  rewrite (string_forallb_app _ (_ +:+ _ +:+ _)), Hpiece.
  rewrite string_forallb_app. simpl in IH |- *. exact IH.
Qed.

(** X4. [queryString] loses nothing but the difference between an absent
    and an empty value: two parameter lists with the same query string have
    the same keys, in the same order, with the same values. In particular a
    value containing [&] or [=] cannot pass for further parameters. *)
Theorem queryString_injective (params1 params2 : list (string * option string)) :
  queryString params1 = queryString params2 →
  present_params params1 = present_params params2.
Proof.
  intros Heq. rewrite <- !parse_query_queryString. by rewrite Heq.
Qed.

(** An absent and an empty value give the same query string, and the same
    parameters are read from it. *)
Lemma queryString_injective_witness :
  present_params [("apiKey", Some "k&y"); ("appName", None)]
  = present_params [("apiKey", Some "k&y"); ("appName", Some "")].
Proof.
  apply queryString_injective. reflexivity.
Defined.

Example queryString_examples :
  queryString [] = "" ∧
  queryString [("apiKey", Some "k e/y"); ("appName", None)]
    = "apiKey=k%20e%2Fy&appName=" ∧
  queryString [("k", None)] = queryString [("k", Some "")] ∧
  parse_query "apiKey=k%20e%2Fy&appName=" = [("apiKey", "k e/y"); ("appName", "")].
Proof. repeat split. Qed.

Lemma utf8_encode_well_formed (units : list N) :
  is_Some (utf8_encode units) ↔ well_formed units = true.
Proof.
  assert (∀ n units, (length units ≤ n)%nat →
            is_Some (utf8_encode units) ↔ well_formed units = true) as Hind.
  { clear units. induction n as [|n IH]; intros [|c rest] Hlen; simpl in *;
      try lia; try (split; [done | by eauto]).
    destruct (is_lead_surrogate c).
    - destruct rest as [|t rest']; [by split; [intros []|]|].
      destruct (is_trail_surrogate t); simpl.
      + rewrite fmap_is_Some. apply IH. simpl in Hlen. lia.
      + by split; [intros []|].
    - destruct (is_trail_surrogate c); simpl.
      + by split; [intros []|].
      + rewrite fmap_is_Some. apply IH. lia. }
  by apply (Hind (length units)).
Qed.

Lemma utf8_encode_None (units : list N) :
  utf8_encode units = None ↔ well_formed units = false.
Proof.
  rewrite eq_None_not_Some, utf8_encode_well_formed.
  by destruct (well_formed units).
Qed.

(** On well-formed parameters [queryString] is [queryString] on their
    UTF-8 bytes. *)
Lemma queryString_utf16_bytes (params : list (list N * option (list N))) :
  queryString_utf16 params = queryString <$> utf8_params params.
Proof.
  unfold queryString_utf16, utf8_params, queryString.
  set (piece := λ kv : string * option string,
         encodeURIComponent kv.1 +:+ "=" +:+
         encodeURIComponent (or_empty kv.2)).
  assert (mapM (λ kv : list N * option (list N),
                  k ← encodeURIComponent_utf16 kv.1;
                  v ← encodeURIComponent_utf16 (default [] kv.2);
                  Some (k +:+ "=" +:+ v)) params
          = fmap piece <$>
              mapM (λ kv : list N * option (list N),
                      k ← utf8_encode kv.1;
                      v ← utf8_encode (default [] kv.2);
                      Some (k, Some v)) params) as ->.
  { induction params as [|[k v] params IH]; [done|].
    simpl. rewrite IH. unfold encodeURIComponent_utf16.
    destruct (utf8_encode k) as [k'|]; [|done]. simpl.
    destruct (utf8_encode (default [] v)) as [v'|]; [|done]. simpl.
    match goal with
    | |- context [mapM ?f params] => by destruct (mapM f params)
    end. }
  match goal with
  | |- context [mapM ?f params] => by destruct (mapM f params)
  end.
Qed.

(** X3. [queryString] throws a [URIError] exactly when a key or a value
    (an absent value counting as empty) holds a surrogate outside a pair;
    otherwise the string it returns is made of unreserved characters, [%],
    [=] and [&] only. *)
Theorem queryString_utf16_alphabet
    (params : list (list N * option (list N))) :
  (∀ s, queryString_utf16 params = Some s →
        string_forallb is_query_char s = true) ∧
  (queryString_utf16 params = None ↔
   Exists (λ kv, well_formed kv.1 = false ∨
                 well_formed (default [] kv.2) = false) params).
Proof.
  rewrite queryString_utf16_bytes. split.
  - intros s Hs. apply fmap_Some in Hs as (bytes & _ & ->).
    apply queryString_bytes_alphabet.
  - rewrite fmap_None. unfold utf8_params. rewrite mapM_None.
    assert (∀ kv : list N * option (list N),
              (utf8_encode kv.1 ≫= λ k,
               utf8_encode (default [] kv.2) ≫= λ v, Some (k, Some v)) = None
              ↔ well_formed kv.1 = false ∨
                well_formed (default [] kv.2) = false) as Hone.
    { intros [k v]. simpl. rewrite <- !utf8_encode_None.
      destruct (utf8_encode k) as [k'|]; simpl; [|by split; [left|]].
      destruct (utf8_encode (default [] v)) as [v'|]; simpl;
        [|by split; [right|]].
      split; [done | by intros [|]]. }
    split; intros Hex; eapply Exists_impl; try exact Hex;
      intros kv Hkv; by apply Hone.
Qed.

Example queryString_utf16_examples :
  (* U+00E9, U+20AC, and U+1F600 as the pair D83D DE00 *)
  queryString_utf16
      [([233], Some [8364]); ([97; 32], Some [55357; 56832])]%N
    = Some "%C3%A9=%E2%82%AC&a%20=%F0%9F%98%80" ∧
  queryString_utf16 [([107], None)]%N = Some "k=" ∧
  (* a lead surrogate alone, a trail surrogate alone, a lead before "a" *)
  queryString_utf16 [([107], Some [55296])]%N = None ∧
  queryString_utf16 [([56320; 107], None)]%N = None ∧
  queryString_utf16 [([107], Some [55296; 97])]%N = None.
Proof. repeat split. Qed.

(** ** Running programs: general facts *)

Section Exec.
Variable env : Environment.

Lemma exec_bind {A B} (p : Prog A) (k : A → Prog B) (w : World env) :
  exec env (p ≫= k) w =
    let '(t1, o1, w1) := exec env p w in
    match o1 with
    | Normal a => let '(t2, o2, w2) := exec env (k a) w1 in (t1 ++ t2, o2, w2)
    | Abrupt e => (t1, Abrupt e, w1)
    end.
Proof.
  revert w. induction p as [a|e|c k' IH]; intros w; simpl.
  - change (Ret a ≫= k) with (k a). by destruct (exec env (k a) w) as [[??]?].
  - reflexivity.
  - change (Do c k' ≫= k) with (Do c (λ r, k' r ≫= k)). simpl.
    destruct (handler env c w) as [r w1]. rewrite IH.
    destruct (exec env (k' r) w1) as [[t1 [a|e]] w2]; [|done].
    by destruct (exec env (k a) w2) as [[??]?].
Qed.

Lemma exec_prog_bind {A B} (p : Prog A) (k : A → Prog B) (w : World env) :
  exec env (prog_bind k p) w =
    let '(t1, o1, w1) := exec env p w in
    match o1 with
    | Normal a => let '(t2, o2, w2) := exec env (k a) w1 in (t1 ++ t2, o2, w2)
    | Abrupt e => (t1, Abrupt e, w1)
    end.
Proof. apply exec_bind. Qed.

Lemma exec_perform (c : Call) (w : World env) :
  exec env (perform c) w =
    ([{| entry_call := c; entry_answer := (handler env c w).1 |}],
     Normal (handler env c w).1, (handler env c w).2).
Proof. simpl. by destruct (handler env c w). Qed.

Lemma exec_try_finally {A} (body : Prog A) (finalizer : Prog unit)
    (w : World env) :
  exec env (try_finally body finalizer) w =
    let '(t1, o1, w1) := exec env body w in
    let '(t2, o2, w2) := exec env finalizer w1 in
    (t1 ++ t2, finally_completion o1 o2, w2).
Proof.
  revert w. induction body as [a|e|c k IH]; intros w; simpl.
  - change (prog_bind ?f ?p) with (p ≫= f). rewrite exec_bind.
    destruct (exec env finalizer w) as [[t2 [[]|e2]] w2]; simpl; [|done].
    by rewrite app_nil_r.
  - change (prog_bind ?f ?p) with (p ≫= f). rewrite exec_bind.
    destruct (exec env finalizer w) as [[t2 [[]|e2]] w2]; simpl; [|done].
    by rewrite app_nil_r.
  - destruct (handler env c w) as [r w1]. rewrite IH.
    destruct (exec env (k r) w1) as [[t1 o1] w2].
    by destruct (exec env finalizer w2) as [[t2 o2] w3].
Qed.

Lemma calls_only_bind (P : Call → Prop) {A B} (p : Prog A) (k : A → Prog B) :
  calls_only P p → (∀ a, calls_only P (k a)) → calls_only P (p ≫= k).
Proof.
  intros Hp Hk. induction Hp as [a|e|c k' Hc _ IH].
  - apply Hk.
  - constructor.
  - change (Do c k' ≫= k) with (Do c (λ r, k' r ≫= k)).
    constructor; [done|]. intros r. apply IH.
Qed.

Lemma calls_only_perform (P : Call → Prop) (c : Call) :
  P c → calls_only P (perform c).
Proof. intros Hc. constructor; [done|]. intros r. constructor. Qed.

Lemma calls_only_await (P : Call → Prop) {T} (p : Prog (Completion T)) :
  calls_only P p → calls_only P (await p).
Proof.
  intros Hp. apply (calls_only_bind P p); [done|].
  intros [v|e]; constructor.
Qed.

Lemma calls_only_lift (P : Call → Prop) {T} (c : Completion T) :
  calls_only P (lift c).
Proof. destruct c; constructor. Qed.

Lemma calls_only_exec (P : Call → Prop) {A} (p : Prog A) (w : World env) :
  calls_only P p → Forall P (calls (trace_of env p w)).
Proof.
  intros Hp. revert w. unfold trace_of, calls.
  induction Hp as [a|e|c k Hc _ IH]; intros w; simpl; [constructor..|].
  destruct (handler env c w) as [r w1]. specialize (IH r w1).
  destruct (exec env (k r) w1) as [[t o] w2]. simpl in *.
  by constructor.
Qed.

Lemma count_calls_app (P : Call → bool) (t1 t2 : list Entry) :
  count_calls P (t1 ++ t2) = (count_calls P t1 + count_calls P t2)%nat.
Proof.
  unfold count_calls, calls. by rewrite fmap_app, filter_app, length_app.
Qed.

Lemma count_calls_cons (P : Call → bool) (e : Entry) (t : list Entry) :
  count_calls P (e :: t) =
    ((if P (entry_call e) then 1 else 0) + count_calls P t)%nat.
Proof.
  unfold count_calls. simpl. destruct (P (entry_call e)) eqn:HP.
  - by rewrite filter_cons_True.
  - rewrite filter_cons_False; [done|]. by rewrite HP.
Qed.

Lemma count_calls_none (P : Call → bool) (t : list Entry) :
  Forall (λ c, P c = false) (calls t) → count_calls P t = 0%nat.
Proof.
  unfold count_calls. induction 1 as [|c l Hc _ IH]; [done|].
  rewrite filter_cons_False; [done|]. by rewrite Hc.
Qed.

End Exec.

(** ** Arrays *)

Lemma Array_sort_Permutation (l : list string) : Array_sort l ≡ₚ l.
Proof. apply merge_sort_Permutation. Qed.

Lemma Array_sort_eq_iff (l1 l2 : list string) :
  Array_sort l1 = Array_sort l2 ↔ l1 ≡ₚ l2.
Proof.
  split.
  - intros Heq. rewrite <- (Array_sort_Permutation l1), Heq.
    apply Array_sort_Permutation.
  - intros Hperm. apply (Sorted_unique String.le).
    + apply (Sorted_merge_sort String.le).
    + apply (Sorted_merge_sort String.le).
    + by rewrite !Array_sort_Permutation.
Qed.

Lemma assertDeepEqual_ok (actual expected : list string) :
  assertDeepEqual actual expected = Normal () ↔ actual = expected.
Proof. unfold assertDeepEqual. case_decide; naive_solver. Qed.

Lemma Array_slice_suffix {A} (l : list A) (d : Z) :
  d ≤ Z.of_nat (length l) →
  Array_slice l (Z.of_nat (length l) - d) = drop (length l - Z.to_nat d) l ∧
  length (Array_slice l (Z.of_nat (length l) - d)) = Z.to_nat d.
Proof.
  intros Hd. unfold Array_slice.
  assert (Z.to_nat (if Z.of_nat (length l) - d <? 0
                    then Z.max (Z.of_nat (length l)
                                + (Z.of_nat (length l) - d)) 0
                    else Z.min (Z.of_nat (length l) - d)
                               (Z.of_nat (length l)))
          = (length l - Z.to_nat d)%nat) as ->.
  { destruct (Z.ltb_spec (Z.of_nat (length l) - d) 0); lia. }
  split; [done|]. rewrite length_drop. lia.
Qed.

Lemma omap_none {A B} (f : A → option B) (l : list A) :
  Forall (λ x, f x = None) l → omap f l = [].
Proof. induction 1 as [|x l Hx _ IH]; [done|]. simpl. by rewrite Hx. Qed.

(** ** Sanity runs against the simulated backend *)

(** Five documents, the last two deleted, a filter of 29 bits first. *)
Example sample_run_5_2 :
  let '(t, o, store) :=
    sample_runTest never_fails (RaceFilter (filter_4_bytes 3))
                   (Some 5) (Some 2) in
  o = Normal () ∧
  DocumentReference.id <$> store = ["doc-d"; "doc-a"; "doc-c"] ∧
  deleted_refs t = [sample_ref "probe" <$> ["doc-b"; "doc-e"]] ∧
  logged_sizes t = [29] ∧
  (λ spec, Target.expectedCount <$> Target.resume spec) <$> added_targets t
    = [None; Some 5] ∧
  count_calls is_close t = 1%nat.
Proof. vm_compute. repeat split. Qed.


(** The deletion fails: the body's error reaches the caller, the stream is
    closed once, and nothing was deleted. *)
Example sample_run_delete_fails :
  let '(t, o, store) :=
    sample_runTest delete_fails (RaceFilter (filter_4_bytes 3))
                   (Some 3) (Some 1) in
  o = Abrupt (RemoteError 14) ∧
  DocumentReference.id <$> store = ["doc-d"; "doc-a"; "doc-c"] ∧
  deleted_refs t = [sample_ref "probe" <$> ["doc-c"]] ∧
  count_calls is_close t = 1%nat.
Proof. vm_compute. repeat split. Qed.

(** More documents to delete than to create: nothing happens. *)
Example sample_run_rejected :
  let '(t, o, store) :=
    sample_runTest never_fails (RaceFilter (filter_4_bytes 3))
                   (Some 2) (Some 3) in
  o = Abrupt (InvalidRunTestOptionsError 3 2) ∧ store = [] ∧
  calls t = [Log MsgTestStarted].
Proof. vm_compute. repeat split. Qed.

Example Math_ceil_half_examples :
  Math_ceil_half 10 = 5 ∧ Math_ceil_half 3 = 2 ∧ Math_ceil_half 0 = 0 ∧
  Math_ceil_half (-3) = -1.
Proof. repeat split. Qed.

Example Array_slice_examples :
  Array_slice [1; 2; 3; 4] 2 = [3; 4] ∧ Array_slice [1; 2; 3; 4] 4 = [] ∧
  Array_slice [1; 2; 3; 4] 5 = [] ∧ Array_slice [1; 2; 3; 4] (-1) = [4] ∧
  Array_slice [1; 2; 3; 4] (-9) = [1; 2; 3; 4].
Proof. repeat split. Qed.

Example Array_sort_example :
  Array_sort ["doc-d"; "doc-a"; "doc-c"] = ["doc-a"; "doc-c"; "doc-d"].
Proof. reflexivity. Qed.

(** ** The probe *)

Section ProbeProperties.
Context `{!Util}.
Variable env : Environment.

(** C2. When the delete count exceeds the create count, [runTest] fails
    with [InvalidRunTestOptionsError] at once: all it has done by then is
    log the start message and, without a collection id, draw one; no
    document is created or deleted and no watch stream is created or
    opened. *)
Theorem runTest_rejects_excess_delete
    (w : World env) (db : Firestore) (projectId host : string) (ssl : bool)
    (documentCreateCount_ documentDeleteCount_ : option Z)
    (collectionId_ : option string) :
  let n := nullish documentCreateCount_ 10 in
  let d := nullish documentDeleteCount_ (Math_ceil_half n) in
  let probe := runTest db projectId host ssl
                 documentCreateCount_ documentDeleteCount_ collectionId_ in
  n < d →
  outcome_of env probe w = Abrupt (InvalidRunTestOptionsError d n) ∧
  calls (trace_of env probe w) =
    Log MsgTestStarted ::
      (match collectionId_ with Some _ => [] | None => [AutoId_newId] end) ∧
  Forall (λ c, is_store_or_stream_call c = false)
         (calls (trace_of env probe w)).
Proof.
  intros n d probe Hlt. subst probe.
  unfold outcome_of, trace_of, runTest.
  fold n. fold d.
  assert ((d >? n) = true) as Hgt by (rewrite Z.gtb_ltb; by apply Z.ltb_lt).
  destruct collectionId_ as [c|]; simpl.
  - destruct (handler env (Log MsgTestStarted) w) as [[] w1].
    simpl. rewrite Hgt. simpl. repeat split. repeat constructor.
  - destruct (handler env (Log MsgTestStarted) w) as [[] w1].
    destruct (handler env AutoId_newId w1) as [newId w2].
    simpl. rewrite Hgt. simpl. repeat split. repeat constructor.
Qed.

(** One step of symbolic execution: name the answer of the next call. *)
Ltac step_handler :=
  match goal with
  | |- context [handler ?e ?c ?w] =>
      let r := fresh "r" in
      let w' := fresh "w" in
      destruct (handler e c w) as [r w'] eqn:?;
      let T := eval cbn in (answer c) in
      lazymatch T with
      | Completion _ => destruct r as [?|?]
      | unit => destruct r
      | _ => idtac
      end;
      simpl
  end.

(** Symbolic execution to the end, splitting on the winner of the race and
    on the decoded bit length as well. *)
Ltac step_race :=
  match goal with
  | |- context [log_race_result ?r] =>
      is_var r; destruct r as [?filter|?snapshot]; unfold log_race_result;
      simpl
  | Hbits : getBloomFilterNumBits (Some ?f) = _
    |- context [getBloomFilterNumBits (Some ?f)] =>
      rewrite Hbits; simpl
  | |- context [getBloomFilterNumBits (Some ?f)] =>
      destruct (getBloomFilterNumBits (Some f)) as [[?numBits|]|?] eqn:?;
      simpl
  end.

Ltac run_to_end := simpl; repeat first [step_handler | step_race].

(** Refute that a concrete list of entries holds an entry of some kind. *)
Ltac no_such_entry H :=
  first
    [ apply Exists_nil in H; destruct H
    | apply Exists_cons in H as [H|H]; [simpl in H; discriminate|] ].

Lemma calls_only_impl (P Q : Call → Prop) {A} (p : Prog A) :
  (∀ c, P c → Q c) → calls_only P p → calls_only Q p.
Proof. intros HPQ. induction 1; constructor; auto. Qed.

Lemma log_race_result_logs_only (result : RaceResult) :
  calls_only (λ c, is_log c = true) (log_race_result result).
Proof.
  destruct result as [filter|snapshot]; simpl.
  - constructor; [done|]. intros [].
    destruct (getBloomFilterNumBits (Some filter)) as [[numBits|]|e]; simpl;
      repeat (constructor; try done; intros).
  - repeat (constructor; try done; intros).
Qed.

(** Every call of a straight-line program satisfies a decidable property. *)
Ltac calls_only_tac :=
  repeat first
    [ apply calls_only_bind
    | apply calls_only_await
    | match goal with
      | |- calls_only ?P (perform ?c) =>
          exact (calls_only_perform P c eq_refl)
      end
    | apply calls_only_lift
    | apply calls_only_Ret
    | apply calls_only_Throw
    | (eapply calls_only_impl; [|apply log_race_result_logs_only];
       by intros [])
    | reflexivity
    | intros ? ].

Lemma cons_app_eq {A} (x : A) (l t rest : list A) :
  l = t ++ rest → x :: l = (x :: t) ++ rest.
Proof. by intros ->. Qed.

Lemma split_tail {A} (l1 l2 l3 : list A) :
  l1 ++ l2 ++ l3 = [] ++ l1 ++ l2 ++ l3.
Proof. reflexivity. Qed.

Lemma split_tail_nil {A} (l1 l2 : list A) : l1 ++ l2 = [] ++ l1 ++ l2 ++ [].
Proof. by rewrite app_nil_r. Qed.

Lemma close_watch_stream_calls (w : World env) :
  calls (exec env close_watch_stream w).1.1 =
    [Log MsgClosingWatchStream; WatchStream_close].
Proof.
  unfold close_watch_stream. simpl. repeat step_handler; reflexivity.
Qed.

Lemma run_never_closes (this : BloomFilterWatchTest.t) :
  calls_only (λ c, is_close c = false) (run this).
Proof.
  unfold run, createDocuments, startTarget, deleteDocuments, pause,
    resumeWatchStream.
  calls_only_tac.
Qed.

(** C7 (amended). Once the watch stream has been opened, [runTest] calls
    [close()] exactly once, after the probe body has completed, normally or
    not. When [close()] resolves, [runTest] completes as the body did, so
    an error of the body reaches the caller; when [close()] itself rejects,
    [runTest] fails with the error of [close()], which replaces that of the
    body. *)
Theorem runTest_closes_once_then_completes
    (w : World env) (db : Firestore) (projectId host : string) (ssl : bool)
    (documentCreateCount_ documentDeleteCount_ : option Z)
    (collectionId_ : option string) :
  let probe := runTest db projectId host ssl
                 documentCreateCount_ documentDeleteCount_ collectionId_ in
  Exists (λ e, open_succeeded e = true) (trace_of env probe w) →
  ∃ (t0 : list Entry) (this : BloomFilterWatchTest.t) (w0 : World env)
    (tail : list Entry),
    let '(tb, ob, wb) := exec env (run this) w0 in
    let '(tc, oc, _) := exec env close_watch_stream wb in
    trace_of env probe w = t0 ++ tb ++ tc ++ tail ∧
    calls tc = [Log MsgClosingWatchStream; WatchStream_close] ∧
    count_calls is_close (trace_of env probe w) = 1%nat ∧
    (oc = Normal () → outcome_of env probe w = ob) ∧
    (∀ e, oc = Abrupt e → outcome_of env probe w = Abrupt e).
Proof.
  intros probe. subst probe. unfold trace_of, outcome_of, runTest.
  generalize run_never_closes. generalize run as body. intros body Hbody.
  generalize close_watch_stream_calls.
  generalize close_watch_stream as closer. intros closer Hcloser.
  set (n := nullish documentCreateCount_ 10).
  set (d := nullish documentDeleteCount_ (Math_ceil_half n)).
  clearbody d. clearbody n.
  destruct (d >? n) eqn:Hgt.
  { (* the options are rejected: nothing was opened *)
    destruct collectionId_ as [c|]; simpl; repeat step_handler;
      rewrite ?Hgt; simpl; intros Hex; by repeat no_such_entry Hex. }
  destruct collectionId_ as [c|]; simpl; repeat step_handler.
  all: try (intros Hex; by repeat no_such_entry Hex).
  all: intros _; rewrite exec_bind, exec_try_finally.
  all: match goal with
       | |- context [exec env (?b ?t) ?w'] =>
           set (this := t);
           destruct (exec env (body this) w') as [[tb ob] wb] eqn:Hb;
           pose proof (calls_only_exec env _ (body this) w' (Hbody this))
             as Hquiet;
           unfold trace_of in Hquiet; rewrite Hb in Hquiet; simpl in Hquiet;
           cbv beta iota zeta
       end.
  all: pose proof (Hcloser wb) as Hclose.
  all: destruct (exec env closer wb) as [[tc oc] wc] eqn:Hc.
  all: simpl in Hclose.
  all: assert (count_calls is_close tb = 0%nat) as Hnone
         by (by apply count_calls_none).
  all: assert (count_calls is_close tc = 1%nat) as Hone
         by (unfold count_calls; by rewrite Hclose).
  all: cbv beta iota zeta.
  all: destruct (finally_completion ob oc) as [[]|e] eqn:Hfin;
         simpl; repeat step_handler.
  all: rewrite <- ?(app_assoc tb tc).
  all: eexists _, this, _, _; rewrite Hb, Hc.
  all: split;
         [ repeat eapply cons_app_eq;
           first [ apply split_tail | apply split_tail_nil ]
         | ].
  all: split; [done|].
  all: split;
         [ rewrite !count_calls_cons, ?count_calls_app, Hnone, Hone;
           reflexivity
         | ].
  all: split; [ intros ->; simpl in Hfin; congruence
              | intros e' ->; simpl in Hfin; congruence ].
Qed.

(** [run] is steps 1-2, the assertion, then steps 3-5. *)
Lemma exec_run (this : BloomFilterWatchTest.t) (w : World env) :
  exec env (run this) w =
    let '(t1, o1, w1) := exec env (observe this) w in
    match o1 with
    | Abrupt e => (t1, Abrupt e, w1)
    | Normal (created, snapshot) =>
        match assertDocumentsInSnapshot snapshot created with
        | Abrupt e => (t1, Abrupt e, w1)
        | Normal _ =>
            let '(t2, o2, w2) :=
              exec env (mutate_and_resume this created snapshot) w1 in
            (t1 ++ t2, o2, w2)
        end
    end.
Proof.
  unfold run, observe, mutate_and_resume.
  rewrite !(exec_bind env (createDocuments this)).
  destruct (exec env (createDocuments this) w) as [[tc [created|e]] wc];
    [|done].
  rewrite !(exec_bind env (startTarget this)).
  destruct (exec env (startTarget this) wc) as [[ts [snapshot|e]] ws];
    [|done].
  simpl exec at 2. cbv beta iota zeta. rewrite app_nil_r.
  rewrite exec_bind.
  destruct (assertDocumentsInSnapshot snapshot created) as [[]|e].
  - change (exec env (lift (Normal ())) ws) with
      (@nil Entry, @Normal unit (), ws).
    cbv beta iota zeta.
    match goal with
    | |- context [exec env ?p ws] =>
        destruct (exec env p ws) as [[t2 o2] w2]
    end.
    by rewrite app_assoc.
  - change (exec env (lift (Abrupt e)) ws) with
      (@nil Entry, @Abrupt unit e, ws).
    cbv beta iota zeta. by rewrite app_nil_r.
Qed.

(** The assertion of step 2 compares the two sorted lists of identifiers,
    so it holds exactly when one list is a permutation of the other. *)
Lemma assertDocumentsInSnapshot_Permutation
    (snapshot : TargetSnapshot) (created : list DocumentReference.t) :
  assertDocumentsInSnapshot snapshot created = Normal () ↔
  documentIdFromDocumentPath <$> elements (documentPaths snapshot)
    ≡ₚ DocumentReference.id <$> created.
Proof.
  unfold assertDocumentsInSnapshot.
  by rewrite assertDeepEqual_ok, Array_sort_eq_iff.
Qed.

Lemma snapshot_ids_NoDup (snapshot : TargetSnapshot) :
  (∀ p q, p ∈ documentPaths snapshot → q ∈ documentPaths snapshot →
          documentIdFromDocumentPath p = documentIdFromDocumentPath q →
          p = q) →
  NoDup (documentIdFromDocumentPath <$> elements (documentPaths snapshot)).
Proof.
  intros Hinj. apply NoDup_fmap_2_strong; [|apply NoDup_elements].
  intros p q Hp%elem_of_elements Hq%elem_of_elements. by apply Hinj.
Qed.

Lemma same_ids_iff (snapshot : TargetSnapshot)
    (created : list DocumentReference.t) :
  snapshot_documentIds snapshot = created_documentIds created ↔
  ∀ x, x ∈ documentIdFromDocumentPath <$> elements (documentPaths snapshot)
       ↔ x ∈ DocumentReference.id <$> created.
Proof.
  unfold snapshot_documentIds, created_documentIds. rewrite set_eq.
  apply forall_proper. intros x.
  rewrite elem_of_map, elem_of_list_to_set.
  rewrite (list_elem_of_fmap documentIdFromDocumentPath).
  by setoid_rewrite elem_of_elements.
Qed.

(** C4. With distinct identifiers on both sides (the created documents are
    [n] different documents, and no two paths of the snapshot name the same
    document), the assertion of step 2 succeeds exactly when the set of
    identifiers of the initial snapshot is the set of identifiers of the
    created documents, in whatever order either side lists them; [run] goes
    on to steps 3-5 in that case and stops with the assertion's error
    otherwise. *)
Theorem step2_assertion_set_equality
    (this : BloomFilterWatchTest.t) (created : list DocumentReference.t)
    (snapshot : TargetSnapshot) :
  NoDup (DocumentReference.id <$> created) →
  (∀ p q, p ∈ documentPaths snapshot → q ∈ documentPaths snapshot →
          documentIdFromDocumentPath p = documentIdFromDocumentPath q →
          p = q) →
  (assertDocumentsInSnapshot snapshot created = Normal () ↔
   snapshot_documentIds snapshot = created_documentIds created) ∧
  (∀ (w : World env) (t1 : list Entry) (w1 : World env),
     exec env (observe this) w = (t1, Normal (created, snapshot), w1) →
     (snapshot_documentIds snapshot = created_documentIds created →
        exec env (run this) w =
          let '(t2, o2, w2) :=
            exec env (mutate_and_resume this created snapshot) w1 in
          (t1 ++ t2, o2, w2)) ∧
     (snapshot_documentIds snapshot ≠ created_documentIds created →
        ∃ actual expected,
          exec env (run this) w =
            (t1, Abrupt (AssertionError actual expected), w1))).
Proof.
  intros Hcreated Hinj.
  assert (assertDocumentsInSnapshot snapshot created = Normal () ↔
          snapshot_documentIds snapshot = created_documentIds created)
    as Hiff.
  { rewrite assertDocumentsInSnapshot_Permutation, same_ids_iff. split.
    - intros Hperm x. by rewrite Hperm.
    - intros Hsame. apply NoDup_Permutation;
        [by apply snapshot_ids_NoDup | done | done]. }
  split; [exact Hiff|].
  intros w t1 w1 Hobs. rewrite exec_run, Hobs. split.
  - intros Hsame%Hiff. by rewrite Hsame.
  - intros Hdiff. unfold assertDocumentsInSnapshot in *.
    unfold assertDeepEqual in *. case_decide as Heq.
    + destruct Hdiff. by apply Hiff.
    + by eexists _, _.
Qed.

Lemma deleted_refs_app (t1 t2 : list Entry) :
  deleted_refs (t1 ++ t2) = deleted_refs t1 ++ deleted_refs t2.
Proof. unfold deleted_refs, calls. by rewrite fmap_app, omap_app. Qed.

Lemma deleted_refs_none (t : list Entry) :
  Forall (λ c, is_delete c = false) (calls t) → deleted_refs t = [].
Proof.
  intros Hno. apply omap_none. eapply Forall_impl; [exact Hno|].
  by intros []. 
Qed.

Lemma observe_never_deletes (this : BloomFilterWatchTest.t) :
  calls_only (λ c, is_delete c = false) (observe this).
Proof.
  unfold observe, createDocuments, startTarget.
  calls_only_tac.
Qed.

Lemma resume_never_deletes (this : BloomFilterWatchTest.t)
    (snapshot : TargetSnapshot) :
  calls_only (λ c, is_delete c = false)
             (pause this 10;; resumeWatchStream this snapshot None).
Proof.
  unfold pause, resumeWatchStream.
  calls_only_tac.
Qed.

Lemma deleteDocuments_deleted_refs (this : BloomFilterWatchTest.t)
    (refs : list DocumentReference.t) (w : World env) :
  deleted_refs (exec env (deleteDocuments this refs) w).1.1 = [refs].
Proof.
  unfold deleteDocuments. simpl. repeat step_handler; reflexivity.
Qed.

Lemma mutate_and_resume_deleted_refs (this : BloomFilterWatchTest.t)
    (created : list DocumentReference.t) (snapshot : TargetSnapshot)
    (w : World env) :
  deleted_refs (trace_of env (mutate_and_resume this created snapshot) w) =
    [documentRefsToDelete this created].
Proof.
  unfold trace_of, mutate_and_resume. rewrite exec_bind.
  pose proof (deleteDocuments_deleted_refs this
                (documentRefsToDelete this created) w) as Hdel.
  destruct (exec env (deleteDocuments this _) w) as [[td [[]|e]] wd];
    simpl in Hdel; [|done].
  pose proof (calls_only_exec env _ _ wd (resume_never_deletes this snapshot))
    as Hrest.
  unfold trace_of in Hrest.
  destruct (exec env (pause this 10;; _) wd) as [[tr or] wr].
  simpl in *. by rewrite deleted_refs_app, Hdel, deleted_refs_none.
Qed.

(** C5. For created references of length [n] and a delete count [d <= n],
    the references handed to [deleteDocuments] are the last [d] of the
    creation-order list: the list splits into a prefix of [n - d] references
    that are never passed to a delete call and the suffix of [d] references
    that is the one and only list deleted. (A negative [d] deletes the empty
    suffix.) *)
Theorem run_deletes_last_documents
    (this : BloomFilterWatchTest.t) (created : list DocumentReference.t)
    (snapshot : TargetSnapshot) (n d : Z) :
  documentDeleteCount this = d →
  Z.of_nat (length created) = n →
  d ≤ n →
  ∃ kept deleted,
    created = kept ++ deleted ∧
    length deleted = Z.to_nat d ∧
    length kept = (Z.to_nat n - Z.to_nat d)%nat ∧
    documentRefsToDelete this created = deleted ∧
    (∀ w : World env,
       deleted_refs (trace_of env (mutate_and_resume this created snapshot) w)
         = [deleted]) ∧
    (∀ (w : World env) (t1 : list Entry) (w1 : World env),
       exec env (observe this) w = (t1, Normal (created, snapshot), w1) →
       assertDocumentsInSnapshot snapshot created = Normal () →
       deleted_refs (trace_of env (run this) w) = [deleted]).
Proof.
  intros Hd Hn Hle.
  destruct (Array_slice_suffix created d) as [Hslice Hlen]; [lia|].
  exists (take (length created - Z.to_nat d) created),
         (drop (length created - Z.to_nat d) created).
  assert (documentRefsToDelete this created =
          drop (length created - Z.to_nat d) created) as Hrefs.
  { unfold documentRefsToDelete. by rewrite Hd. }
  split; [by rewrite take_drop|].
  split; [by rewrite <- Hslice|].
  split; [rewrite length_take; lia|].
  split; [exact Hrefs|].
  split.
  { intros w. by rewrite mutate_and_resume_deleted_refs, Hrefs. }
  intros w t1 w1 Hobs Hassert. unfold trace_of.
  rewrite exec_run, Hobs, Hassert.
  pose proof (mutate_and_resume_deleted_refs this created snapshot w1) as Hmr.
  unfold trace_of in Hmr.
  destruct (exec env (mutate_and_resume this created snapshot) w1)
    as [[t2 o2] w2].
  simpl in Hmr. simpl. rewrite deleted_refs_app, Hmr, Hrefs.
  pose proof (calls_only_exec env _ _ w (observe_never_deletes this)) as Hobs'.
  unfold trace_of in Hobs'. rewrite Hobs in Hobs'. simpl in Hobs'.
  by rewrite deleted_refs_none.
Qed.

(** C6. [resumeWatchStream] registers one target, target 2, as a resumption
    of the snapshot it is given; the expected count it sends is the number
    of document paths of that snapshot when no override is supplied, and
    the override when one is. *)
Theorem resumeWatchStream_expectedCount
    (this : BloomFilterWatchTest.t) (snapshot : TargetSnapshot)
    (options : option ResumeOptions.t) (w : World env) :
  ∃ spec expectedCount,
    added_targets (trace_of env (resumeWatchStream this snapshot options) w)
      = [spec] ∧
    Target.targetId spec = 2 ∧
    Target.resume spec =
      Some {| Target.from := snapshot;
              Target.expectedCount := expectedCount |} ∧
    (optional_chain options ResumeOptions.expectedCount = None →
       expectedCount = Z.of_nat (size (documentPaths snapshot))) ∧
    (∀ override,
       optional_chain options ResumeOptions.expectedCount = Some override →
       expectedCount = override).
Proof.
  exists (resume_target this snapshot (resume_expectedCount snapshot options)),
         (resume_expectedCount snapshot options).
  split.
  { unfold trace_of, resumeWatchStream.
    generalize (resume_target this snapshot
                  (resume_expectedCount snapshot options)) as spec.
    intros spec. run_to_end; reflexivity. }
  split; [reflexivity|]. split; [reflexivity|].
  unfold resume_expectedCount.
  split; [by intros ->|]. by intros override ->.
Qed.

Lemma getBloomFilterNumBits_total (ef : option ExistenceFilter) (e : Error) :
  getBloomFilterNumBits ef ≠ Abrupt e.
Proof.
  destruct ef as [f|]; [|done].
  destruct (unchangedNames f) as [names|] eqn:Hn.
  - rewrite (getBloomFilterNumBits_names f names Hn). by destruct (_ || _).
  - by rewrite getBloomFilterNumBits_no_names.
Qed.

(** C8. [resumeWatchStream] awaits the race first. If the race does not
    resolve, the step fails. If it resolves, whichever promise won, the
    next call after the logging is the await of the target-2 snapshot; the
    decoded bit length is logged only for a filter that came first (and
    decoded to a number); and the step returns normally exactly when that
    snapshot promise resolved. So it never returns before the snapshot has
    resolved. *)
Theorem resumeWatchStream_awaits_snapshot
    (this : BloomFilterWatchTest.t) (snapshot : TargetSnapshot)
    (options : option ResumeOptions.t) (w : World env) :
  let t := trace_of env (resumeWatchStream this snapshot options) w in
  let o := outcome_of env (resumeWatchStream this snapshot options) w in
  match after_race t with
  | None => is_normal o = false ∧ logged_sizes t = []
  | Some (result, rest) =>
      logged_sizes t = sizes_to_log result ∧
      ∃ es, next_call_after_logs rest = Some es ∧
            entry_call es = Await_snapshot 2 ∧
            (o = Normal () ↔ is_Some (resolved_snapshot es))
  end ∧
  (o = Normal () → Exists (λ e, is_Some (resolved_snapshot e)) t).
Proof.
  intros t o. subst t o. unfold trace_of, outcome_of, resumeWatchStream.
  run_to_end.
  all: try match goal with
       | Hraise : getBloomFilterNumBits _ = Abrupt _ |- _ =>
           by apply getBloomFilterNumBits_total in Hraise
       end.
  all: unfold sizes_to_log;
       repeat match goal with
       | Hbits : getBloomFilterNumBits _ = _ |- _ => rewrite Hbits; clear Hbits
       end.
  all: split;
       [ first
           [ by split
           | split; [reflexivity|]; eexists; split; [reflexivity|];
             split; [reflexivity|]; simpl; split; intros Hx;
             first [ done
                   | discriminate Hx
                   | (destruct Hx as [? Hx']; discriminate Hx')
                   | by eauto ] ]
       | ].
  all: first
       [ by intros [=]
       | intros _; repeat first
           [ by apply Exists_cons_hd; simpl; eauto
           | apply Exists_cons_tl ] ].
Qed.

(** ** More on the probe *)

(** Symbolic execution of [run]: the assertion of step 2 is a case split
    as well. *)
Ltac step_assert check :=
  match goal with
  | |- context [check ?s ?c] =>
      destruct (check s c) as [[]|?] eqn:?; simpl
  end.

Ltac unfold_run :=
  unfold run, createDocuments, startTarget, deleteDocuments, pause,
    resumeWatchStream, documentRefsToDelete, resume_target,
    resume_expectedCount.

(** X5. The calls [run] makes besides logging are always an initial part of
    one fixed sequence: create the documents, add target 1, await its
    snapshot, remove target 1, delete the last documents, wait 10000 ms,
    add target 2 as a resumption of the snapshot taken, create the filter
    and the snapshot promise, await the race, await the snapshot. A normal
    return means the whole sequence was made. So nothing is deleted before
    the initial snapshot was taken and target 1 removed, and target 2 is
    never removed by [run]. *)
Theorem run_follows_script (this : BloomFilterWatchTest.t) (w : World env) :
  let t := trace_of env (run this) w in
  non_log_calls t `prefix_of`
    run_script this (created_of t) (initial_snapshot_of t) ∧
  (outcome_of env (run this) w = Normal () →
   non_log_calls t = run_script this (created_of t) (initial_snapshot_of t)).
Proof.
  intros t. subst t. unfold trace_of, outcome_of. unfold_run.
  generalize (assertDocumentsInSnapshot (H := H)) as check. intros check.
  simpl. repeat first [step_handler | step_race | step_assert check].
  all: split; [ by eexists | first [ discriminate | reflexivity ] ].
Qed.

(** *** The ways [runTest] can go *)

(** The entries [runTest] starts with: the start message and, without a
    collection id, the id drawn for it. *)
Definition runTest_head (collectionId_ : option string) (newId : string)
  : list Entry :=
  {| entry_call := Log MsgTestStarted; entry_answer := () |} ::
  match collectionId_ with
  | Some _ => []
  | None => [{| entry_call := AutoId_newId; entry_answer := newId |}]
  end.

Definition runTest_collectionId (collectionId_ : option string)
    (newId : string) : string :=
  match collectionId_ with
  | Some c => c
  | None => "bloom_filter_watch_test_" +:+ newId
  end.

(** The entries up to the answer [opened] of [open()]. *)
Definition runTest_opening (projectId host : string) (ssl : bool)
    (uniqueId : string) (opened : Completion unit) : list Entry :=
  [ {| entry_call := Log (MsgCreatingWatchStream projectId host);
       entry_answer := () |};
    {| entry_call := createWatchStream projectId host ssl;
       entry_answer := Normal () |};
    {| entry_call := AutoId_newId; entry_answer := uniqueId |};
    {| entry_call := WatchStream_open; entry_answer := opened |} ].

Lemma runTest_cases
    (w : World env) (db : Firestore) (projectId host : string) (ssl : bool)
    (documentCreateCount_ documentDeleteCount_ : option Z)
    (collectionId_ : option string) :
  let n := nullish documentCreateCount_ 10 in
  let d := nullish documentDeleteCount_ (Math_ceil_half n) in
  let probe := runTest db projectId host ssl
                 documentCreateCount_ documentDeleteCount_ collectionId_ in
  ∃ newId,
    let head := runTest_head collectionId_ newId in
    (n < d ∧ trace_of env probe w = head ∧
     outcome_of env probe w = Abrupt (InvalidRunTestOptionsError d n)) ∨
    (d ≤ n ∧ ∃ e,
       trace_of env probe w =
         head ++
         [ {| entry_call := Log (MsgCreatingWatchStream projectId host);
              entry_answer := () |};
           {| entry_call := createWatchStream projectId host ssl;
              entry_answer := Abrupt e |} ] ∧
       outcome_of env probe w = Abrupt e) ∨
    (d ≤ n ∧ ∃ uniqueId e,
       trace_of env probe w =
         head ++ runTest_opening projectId host ssl uniqueId (Abrupt e) ∧
       outcome_of env probe w = Abrupt e) ∨
    (d ≤ n ∧ ∃ uniqueId w0,
       let this :=
         {| db := db; projectId := projectId; host := host; ssl := ssl;
            documentCreateCount := n; documentDeleteCount := d;
            collectionId := runTest_collectionId collectionId_ newId;
            uniqueId := uniqueId |} in
       let '(tb, ob, wb) := exec env (run this) w0 in
       let '(tc, oc, _) := exec env close_watch_stream wb in
       trace_of env probe w =
         head ++ runTest_opening projectId host ssl uniqueId (Normal ()) ++
         tb ++ tc ++
         match finally_completion ob oc with
         | Normal _ =>
             [{| entry_call := Log MsgTestCompleted; entry_answer := () |}]
         | Abrupt _ => []
         end ∧
       outcome_of env probe w = finally_completion ob oc).
Proof.
  intros n d probe. subst probe. unfold trace_of, outcome_of, runTest.
  fold n. fold d. clearbody d. clearbody n.
  generalize run as body. intros body.
  generalize close_watch_stream as closer. intros closer.
  destruct (d >? n) eqn:Hgt.
  { assert (n < d) by (rewrite Z.gtb_ltb in Hgt; by apply Z.ltb_lt).
    destruct collectionId_ as [c|]; simpl; repeat step_handler;
      rewrite ?Hgt; simpl; eexists; left; done. }
  assert (d ≤ n) by (rewrite Z.gtb_ltb in Hgt; by apply Z.ltb_ge).
  destruct collectionId_ as [c|]; simpl; repeat step_handler.
  all: repeat match goal with v : () |- _ => destruct v end.
  all: try (eexists; right; left; split; [done|]; by eexists).
  all: try (eexists; right; right; left; split; [done|]; by eexists _, _).
  all: rewrite exec_bind, exec_try_finally.
  all: match goal with
       | |- context [exec env (?b ?t) ?w'] =>
           destruct (exec env (b t) w') as [[tb ob] wb] eqn:Hb
       end.
  all: cbv beta iota zeta.
  all: destruct (exec env closer wb) as [[tc oc] wc] eqn:Hc.
  all: cbv beta iota zeta.
  all: destruct (finally_completion ob oc) as [[]|e] eqn:Hfin;
         simpl; repeat step_handler.
  all: rewrite <- ?(app_assoc tb tc).
  all: eexists; right; right; right; (split; [done|]); eexists _, _;
         simpl; rewrite Hb, Hc, Hfin; rewrite ?app_nil_r; done.
  Unshelve. all: exact "".
Qed.

Lemma Math_ceil_half_bounds (n : Z) :
  n ≤ 2 * Math_ceil_half n ≤ n + 1.
Proof. unfold Math_ceil_half. Z.div_mod_to_equations. lia. Qed.

(** X6. [runTest] creates the watch stream exactly when the delete count
    does not exceed the create count; until then it touches neither the
    stream nor the store. With the delete count omitted it defaults to half
    the create count, rounded up, so the options are rejected exactly when
    the create count is negative. *)
Theorem runTest_validation
    (w : World env) (db : Firestore) (projectId host : string) (ssl : bool)
    (documentCreateCount_ documentDeleteCount_ : option Z)
    (collectionId_ : option string) :
  let n := nullish documentCreateCount_ 10 in
  let d := nullish documentDeleteCount_ (Math_ceil_half n) in
  let t := trace_of env (runTest db projectId host ssl documentCreateCount_
                           documentDeleteCount_ collectionId_) w in
  (d ≤ n ↔ createWatchStream projectId host ssl ∈ calls t) ∧
  (n < d ↔ Forall (λ c, is_store_or_stream_call c = false) (calls t)) ∧
  (documentDeleteCount_ = None → (n < d ↔ n < 0) ∧ n ≤ 2 * d ≤ n + 1).
Proof.
  intros n d t.
  assert ((d ≤ n ∧ (createWatchStream projectId host ssl ∈ calls t) ∧
           ¬ Forall (λ c, is_store_or_stream_call c = false) (calls t)) ∨
          (n < d ∧ (createWatchStream projectId host ssl ∉ calls t) ∧
           Forall (λ c, is_store_or_stream_call c = false) (calls t)))
    as Hcases.
  { destruct (runTest_cases w db projectId host ssl documentCreateCount_
                documentDeleteCount_ collectionId_)
      as (newId & [(Hlt & Ht & _) | Hrest]).
    - right. split; [done|]. fold t in Ht. rewrite Ht.
      destruct collectionId_; simpl; split;
        [| repeat constructor | | repeat constructor];
        intros Hin;
        repeat (apply elem_of_cons in Hin as [Hin|Hin]; [discriminate|]);
        by apply elem_of_nil in Hin.
    - left. fold n d t in Hrest.
      assert (d ≤ n ∧ ∃ rest,
                calls t = calls (runTest_head collectionId_ newId) ++
                          Log (MsgCreatingWatchStream projectId host) ::
                          createWatchStream projectId host ssl :: rest)
        as (Hle & rest & Ht).
      { destruct Hrest as [(Hle & e & -> & _) |
                           [(Hle & u & e & -> & _) | (Hle & u & w0 & Hd)]].
        - split; [done|]. eexists. unfold calls. by rewrite fmap_app.
        - split; [done|]. eexists. unfold calls. by rewrite fmap_app.
        - split; [done|]. cbv zeta in Hd.
          destruct (exec env (run _) w0) as [[tb ob] wb].
          destruct (exec env close_watch_stream wb) as [[tc oc] wc].
          destruct Hd as [-> _]. eexists. unfold calls.
          by rewrite fmap_app. }
      split; [done|]. rewrite Ht. split.
      + rewrite elem_of_app, !elem_of_cons. auto.
      + intros [_ HF]%Forall_app. apply Forall_cons in HF as [_ HF].
        apply Forall_cons in HF as [HF _]. discriminate. }
  split; [|split].
  - destruct Hcases as [(Hle & Hin & HF) | (Hlt & Hin & HF)]; split;
      first [done | lia].
  - destruct Hcases as [(Hle & Hin & HF) | (Hlt & Hin & HF)]; split;
      first [done | lia].
  - intros Hnone. subst d. rewrite Hnone. simpl.
    pose proof (Math_ceil_half_bounds n). lia.
Qed.

(** X7. [close()] is called only on a stream that was opened: when the
    options are rejected, when [createWatchStream] throws or when [open()]
    rejects, [runTest] fails without calling [close()] and without creating
    a document. *)
Theorem runTest_without_open
    (w : World env) (db : Firestore) (projectId host : string) (ssl : bool)
    (documentCreateCount_ documentDeleteCount_ : option Z)
    (collectionId_ : option string) :
  let probe := runTest db projectId host ssl
                 documentCreateCount_ documentDeleteCount_ collectionId_ in
  ¬ Exists (λ e, open_succeeded e = true) (trace_of env probe w) →
  count_calls is_close (trace_of env probe w) = 0%nat ∧
  count_calls is_createDocuments (trace_of env probe w) = 0%nat ∧
  ∃ e, outcome_of env probe w = Abrupt e.
Proof.
  intros probe Hnot. subst probe.
  destruct (runTest_cases w db projectId host ssl documentCreateCount_
              documentDeleteCount_ collectionId_)
    as (newId & [(_ & Ht & Ho) |
                 [(_ & e & Ht & Ho) |
                  [(_ & u & e & Ht & Ho) | (_ & u & w0 & Hd)]]]).
  - rewrite Ht, Ho. destruct collectionId_; by eauto.
  - rewrite Ht, Ho. destruct collectionId_; by eauto.
  - rewrite Ht, Ho. destruct collectionId_; by eauto.
  - destruct Hnot. cbv zeta in Hd.
    destruct (exec env (run _) w0) as [[tb ob] wb].
    destruct (exec env close_watch_stream wb) as [[tc oc] wc].
    destruct Hd as [-> _].
    apply Exists_app. right. apply Exists_app. left.
    unfold runTest_opening. repeat first
      [ by apply Exists_cons_hd | apply Exists_cons_tl ].
Qed.

Lemma close_watch_stream_exec (w : World env) :
  ∃ a w',
    exec env close_watch_stream w =
      ([ {| entry_call := Log MsgClosingWatchStream; entry_answer := () |};
         {| entry_call := WatchStream_close; entry_answer := a |} ], a, w').
Proof.
  unfold close_watch_stream. simpl. repeat step_handler; by eexists _, _.
Qed.

Lemma run_normal_no_failure (this : BloomFilterWatchTest.t) (w : World env) :
  outcome_of env (run this) w = Normal () →
  Forall (λ e, failure_of e = None) (trace_of env (run this) w).
Proof.
  unfold trace_of, outcome_of. unfold_run.
  generalize (assertDocumentsInSnapshot (H := H)) as check. intros check.
  simpl. repeat first [step_handler | step_race | step_assert check].
  all: first [ discriminate | intros _; repeat constructor ].
Qed.

Lemma finally_completion_normal {A} (ob : Completion A) (oc : Completion unit)
    (a : A) :
  finally_completion ob oc = Normal a → ob = Normal a ∧ oc = Normal ().
Proof. destruct oc as [[]|e]; simpl; [done | discriminate]. Qed.

(** X8. [runTest] returns normally exactly when its last call is the log of
    "Completed Successfully"; and then no failure was swallowed on the way:
    every call it made had succeeded and the options had been accepted. *)
Theorem runTest_normal_return
    (w : World env) (db : Firestore) (projectId host : string) (ssl : bool)
    (documentCreateCount_ documentDeleteCount_ : option Z)
    (collectionId_ : option string) :
  let n := nullish documentCreateCount_ 10 in
  let d := nullish documentDeleteCount_ (Math_ceil_half n) in
  let probe := runTest db projectId host ssl
                 documentCreateCount_ documentDeleteCount_ collectionId_ in
  (outcome_of env probe w = Normal () ↔
   last (calls (trace_of env probe w)) = Some (Log MsgTestCompleted)) ∧
  (outcome_of env probe w = Normal () →
   d ≤ n ∧ Forall (λ e, failure_of e = None) (trace_of env probe w)).
Proof.
  intros n d probe. subst probe.
  destruct (runTest_cases w db projectId host ssl documentCreateCount_
              documentDeleteCount_ collectionId_)
    as (newId & [(_ & Ht & Ho) |
                 [(_ & e & Ht & Ho) |
                  [(_ & u & e & Ht & Ho) | (Hle & u & w0 & Hd)]]]).
  - rewrite Ht, Ho. destruct collectionId_; simpl; by repeat split.
  - rewrite Ht, Ho. destruct collectionId_; simpl; by repeat split.
  - rewrite Ht, Ho. destruct collectionId_; simpl; by repeat split.
  - cbv zeta in Hd.
    match type of Hd with
    | context [exec env (run ?t) w0] => set (this := t) in *
    end.
    pose proof (run_normal_no_failure this w0) as Hbody.
    unfold trace_of, outcome_of in Hbody.
    destruct (exec env (run this) w0) as [[tb ob] wb].
    destruct (close_watch_stream_exec wb) as (a & wc & Hc). rewrite Hc in Hd.
    destruct Hd as [-> ->]. simpl in Hbody. unfold calls.
    rewrite !fmap_app, !last_app.
    destruct (finally_completion ob a) as [[]|e] eqn:Hfin; simpl.
    + split; [done|]. intros _. split; [done|].
      apply finally_completion_normal in Hfin as [-> ->].
      destruct collectionId_; simpl;
        repeat first
          [ apply Forall_nil_2
          | (apply Forall_cons_2; [reflexivity|])
          | apply Forall_app_2
          | by apply Hbody ].
    + by repeat split.
Qed.

(** X9. [startTarget] adds target 1, without a resume descriptor, and
    nothing else; it removes target 1 exactly when the initial snapshot
    arrived, and then what it returns is that snapshot. If adding the
    target or waiting for the snapshot fails, target 1 is not removed. *)
Theorem startTarget_removes_target
    (this : BloomFilterWatchTest.t) (w : World env) :
  let t := trace_of env (startTarget this) w in
  let o := outcome_of env (startTarget this) w in
  added_targets t = [initial_target this] ∧
  match omap initial_snapshot_answer t with
  | [] => count_calls is_removeTarget t = 0%nat ∧ is_normal o = false
  | [snapshot] =>
      last (non_log_calls t) = Some (WatchStream_removeTarget 1) ∧
      count_calls is_removeTarget t = 1%nat ∧
      (is_normal o = true → o = Normal snapshot)
  | _ => False
  end.
Proof.
  intros t o. subst t o. unfold trace_of, outcome_of, startTarget.
  simpl. repeat step_handler.
  all: split; [reflexivity|]; simpl; repeat split; done.
Qed.

Lemma Array_slice_suffix_length {A} (l : list A) (start : Z) :
  Array_slice l start `suffix_of` l ∧
  Z.of_nat (length (Array_slice l start)) =
    (let len := Z.of_nat (length l) in
     if start <? 0 then Z.min len (- start) else Z.max (len - start) 0).
Proof.
  unfold Array_slice. split; [apply suffix_drop|].
  rewrite length_drop. cbv zeta.
  destruct (Z.ltb_spec start 0); lia.
Qed.

(** X10. Whatever the backend answers, [run] makes at most one delete call,
    and the references it hands over are a final part of the references
    [createDocuments] returned in that run, never anything else. With [len]
    references created it deletes the last [d] when [0 <= d <= len],
    nothing when [d < 0], and, when fewer were created than are to be
    deleted, only the last [d - len] (all of them from [d >= 2 len] on). *)
Theorem run_deletes_only_created
    (this : BloomFilterWatchTest.t) (w : World env) :
  let t := trace_of env (run this) w in
  let len := Z.of_nat (length (created_of t)) in
  let d := documentDeleteCount this in
  (length (deleted_refs t) ≤ 1)%nat ∧
  Forall (λ refs,
            refs `suffix_of` created_of t ∧
            Z.of_nat (length refs) =
              if d <=? len then Z.max d 0 else Z.min len (d - len))
         (deleted_refs t).
Proof.
  intros t len d. subst t len d. unfold trace_of. unfold_run.
  generalize (assertDocumentsInSnapshot (H := H)) as check. intros check.
  simpl. repeat first [step_handler | step_race | step_assert check].
  all: split; [simpl; lia|].
  all: first [ by apply Forall_nil_2 | apply Forall_cons_2; [|done] ].
  all: unfold created_of; simpl.
  all: match goal with
       | |- context [Array_slice ?l ?start] =>
           destruct (Array_slice_suffix_length l start) as [Hsuffix Hlength];
           split; [exact Hsuffix|]; rewrite Hlength; cbv zeta;
           destruct (Z.ltb_spec start 0);
           destruct (Z.leb_spec (documentDeleteCount this)
                                (Z.of_nat (length l))); lia
       end.
Qed.

(** X11. The assertion of step 2 does not depend on the order in which the
    created references are listed: two lists with the same identifiers up to
    order pass or fail alike, with the same error. *)
Theorem assertDocumentsInSnapshot_order_independent
    (snapshot : TargetSnapshot) (created1 created2 : list DocumentReference.t) :
  DocumentReference.id <$> created1 ≡ₚ DocumentReference.id <$> created2 →
  assertDocumentsInSnapshot snapshot created1
  = assertDocumentsInSnapshot snapshot created2.
Proof.
  intros Hperm. unfold assertDocumentsInSnapshot.
  by apply Array_sort_eq_iff in Hperm as ->.
Qed.

(** X12. When the assertion of step 2 passes, the snapshot has as many
    document paths as references were created, so the expected count that
    [resumeWatchStream] sends by default is the number of documents
    created, deleted ones included. *)
Theorem resume_expectedCount_is_created_count
    (snapshot : TargetSnapshot) (created : list DocumentReference.t) :
  assertDocumentsInSnapshot snapshot created = Normal () →
  size (documentPaths snapshot) = length created ∧
  resume_expectedCount snapshot None = Z.of_nat (length created).
Proof.
  intros Hperm%assertDocumentsInSnapshot_Permutation.
  apply Permutation_length in Hperm. rewrite !length_fmap in Hperm.
  assert (size (documentPaths snapshot) = length created) as Hsize
    by exact Hperm.
  split; [exact Hsize|]. unfold resume_expectedCount. simpl.
  by rewrite Hsize.
Qed.

End ProbeProperties.

(** ** The theorems at work on the simulated backend *)

(** Two documents to create, three to delete: rejected. *)
Lemma runTest_rejects_excess_delete_witness :
  outcome_of (sim_env never_fails sample_race)
    (runTest (H := sample_util) sample_db "demo-project" "localhost:8080"
             false (Some 2) (Some 3) None) []
  = Abrupt (InvalidRunTestOptionsError 3 2).
Proof.
  apply (runTest_rejects_excess_delete (H := sample_util)
           (sim_env never_fails sample_race) [] sample_db
           "demo-project" "localhost:8080" false (Some 2) (Some 3) None).
  simpl. lia.
Defined.

(** Three created documents and the snapshot of exactly those. *)
Lemma step2_assertion_set_equality_witness :
  snapshot_documentIds (H := sample_util) (sim_snapshot sample_created)
  = created_documentIds sample_created.
Proof.
  apply (step2_assertion_set_equality (H := sample_util)
           (sim_env never_fails sample_race) (sample_runner 3 2)
           sample_created (sim_snapshot sample_created)).
  - refine (bool_decide_unpack _ _). vm_compute. exact I.
  - intros p q Hp Hq.
    apply elem_of_list_to_set in Hp. apply elem_of_list_to_set in Hq.
    simpl in Hp, Hq. set_unfold.
    destruct Hp as [->|[->|[->|[]]]]; destruct Hq as [->|[->|[->|[]]]];
      vm_compute; congruence.
  - vm_compute. reflexivity.
Defined.

(** Of three created documents the last two are the ones to delete. *)
Lemma run_deletes_last_documents_witness :
  documentRefsToDelete (sample_runner 3 2) sample_created
  = sample_ref "probe" <$> ["doc-a"; "doc-c"].
Proof.
  destruct (run_deletes_last_documents (H := sample_util)
              (sim_env never_fails sample_race) (sample_runner 3 2)
              sample_created (sim_snapshot sample_created) 3 2)
    as (kept & deleted & _ & _ & _ & Hrefs & _).
  - reflexivity.
  - reflexivity.
  - lia.
  - vm_compute. reflexivity.
Defined.

(** Resuming from a snapshot of three paths sends [expectedCount = 3]. *)
Lemma resumeWatchStream_expectedCount_witness :
  ∃ spec,
    added_targets (trace_of (sim_env never_fails sample_race)
                            (sample_resume never_fails sample_race)
                            sample_created) = [spec] ∧
    Target.resume spec =
      Some {| Target.from := sim_snapshot sample_created;
              Target.expectedCount := 3 |}.
Proof.
  destruct (resumeWatchStream_expectedCount (H := sample_util)
              (sim_env never_fails sample_race) (sample_runner 3 2)
              (sim_snapshot sample_created) None sample_created)
    as (spec & expectedCount & Hadded & _ & Hresume & Hdefault & _).
  exists spec. split; [exact Hadded|].
  rewrite Hresume, (Hdefault eq_refl). vm_compute. reflexivity.
Defined.

(** The deletion fails and so does [close()]: still one [close()] call. *)
Lemma runTest_closes_once_then_completes_witness :
  count_calls is_close
    (sample_runTest delete_and_close_fail sample_race (Some 3) (Some 1)).1.1
  = 1%nat.
Proof.
  destruct (runTest_closes_once_then_completes (H := sample_util)
              (sim_env delete_and_close_fail sample_race) [] sample_db
              "demo-project" "localhost:8080" false (Some 3) (Some 1)
              (Some "probe"))
    as (t0 & this & w0 & tail & Hall).
  { vm_compute. repeat first [ by apply Exists_cons_hd | apply Exists_cons_tl ]. }
  destruct (exec _ (run this) w0) as [[tb ob] wb].
  destruct (exec _ close_watch_stream wb) as [[tc oc] wc].
  exact (proj1 (proj2 (proj2 Hall))).
Defined.

(** A filter wins the race; the snapshot is awaited all the same. *)
Lemma resumeWatchStream_awaits_snapshot_witness :
  Exists (λ e, is_Some (resolved_snapshot e))
    (trace_of (sim_env never_fails sample_race)
              (sample_resume never_fails sample_race) sample_created).
Proof.
  apply (resumeWatchStream_awaits_snapshot (H := sample_util)
           (sim_env never_fails sample_race) (sample_runner 3 2)
           (sim_snapshot sample_created) None sample_created).
  vm_compute. reflexivity.
Defined.

(** C7, as stated, fails: the stream is open, the body fails with code 1
    and [close()], called once, fails with code 2; the caller gets code 2,
    not the error of the body. *)
Lemma runTest_close_error_replaces_body_error :
  Exists (λ e, open_succeeded e = true)
         (trace_of double_failure_env double_failure_probe []) ∧
  outcome_of double_failure_env (run (H := sample_util) (sample_runner 3 1)) []
    = Abrupt (RemoteError 1) ∧
  omap failure_of (trace_of double_failure_env double_failure_probe [])
    = [RemoteError 1; RemoteError 2] ∧
  count_calls is_close (trace_of double_failure_env double_failure_probe [])
    = 1%nat ∧
  outcome_of double_failure_env double_failure_probe []
    = Abrupt (RemoteError 2) ∧
  outcome_of double_failure_env double_failure_probe []
    ≠ Abrupt (RemoteError 1).
Proof.
  split.
  { vm_compute. repeat first [ by apply Exists_cons_hd | apply Exists_cons_tl ]. }
  split; [vm_compute; reflexivity|].
  split; [vm_compute; reflexivity|].
  split; [vm_compute; reflexivity|].
  split; [vm_compute; reflexivity|].
  vm_compute. discriminate.
Qed.

(** [open()] rejects: no [close()], no document, a failed run. *)
Lemma runTest_without_open_witness :
  count_calls is_close
    (sample_runTest open_fails sample_race (Some 3) (Some 1)).1.1 = 0%nat ∧
  (sample_runTest open_fails sample_race (Some 3) (Some 1)).1.2
    = Abrupt (RemoteError 14).
Proof.
  destruct (runTest_without_open (H := sample_util)
              (sim_env open_fails sample_race) [] sample_db
              "demo-project" "localhost:8080" false (Some 3) (Some 1)
              (Some "probe"))
    as (Hclose & _ & e & Hfail).
  { refine (bool_decide_unpack _ _). vm_compute. exact I. }
  split; [exact Hclose|]. reflexivity.
Defined.

(** The created documents listed in another order. *)
Lemma assertDocumentsInSnapshot_order_independent_witness :
  assertDocumentsInSnapshot (H := sample_util) (sim_snapshot sample_created)
    (sample_ref "probe" <$> ["doc-c"; "doc-d"; "doc-a"])
  = Normal ().
Proof.
  rewrite (assertDocumentsInSnapshot_order_independent (H := sample_util)
             (sim_snapshot sample_created)
             (sample_ref "probe" <$> ["doc-c"; "doc-d"; "doc-a"])
             sample_created).
  - vm_compute. reflexivity.
  - simpl. etrans; [apply perm_swap|]. apply perm_skip, perm_swap.
Defined.

(** Three documents created, three paths in the snapshot, expected count 3. *)
Lemma resume_expectedCount_is_created_count_witness :
  resume_expectedCount (sim_snapshot sample_created) None = 3.
Proof.
  apply (resume_expectedCount_is_created_count (H := sample_util)
           (sim_snapshot sample_created) sample_created).
  vm_compute. reflexivity.
Defined.
